(** * Image-similarity scan over a forensic disk image: model of [main.py]

    A shallow embedding of the traversal-and-matching pipeline of
    [src/main.py] ([img_similarity_check], [find_similar_images],
    [is_image_similar], [traverse_file_entries] and the report printed by
    the [__main__] block), followed by the properties of the specification
    that are stated about it.

    Conventions.
    - A Python [dict] is an association list in insertion order: iteration
      order ([items()], the final report) is observable.
    - The mutable objects the functions share ([result], the standard
      output, the files written under the output folder) are the fields of
      one [State] that every function threads.
    - An exception is a value [inl e]; [try ... except Exception] is a
      [match] on it.  The state reached before the exception was raised is
      kept, as in Python.
    - The external collaborators (image library, local file system, virtual
      file system provider) are the fields of two interfaces; a concrete
      8-bit model of the image library is given in [Module Pillow]. *)

From Stdlib Require Import List String Ascii Bool ZArith QArith Qreduction Lia.
Import ListNotations.

Local Open Scope string_scope.
Local Open Scope list_scope.
Local Open Scope Z_scope.

Set Implicit Arguments.

(** ** Python strings and [os.path] *)

Module Py.

(** [str.lower] on the ASCII range. *)
Definition lower_ascii (c : ascii) : ascii :=
  let n := nat_of_ascii c in
  if (Nat.leb 65 n && Nat.leb n 90)%bool then ascii_of_nat (n + 32) else c.

Definition lower (s : string) : string :=
  string_of_list_ascii (map lower_ascii (list_ascii_of_string s)).

(** [s.endswith(suffix)] *)
Definition endswith (s suffix : string) : bool :=
  let n := String.length s in
  let m := String.length suffix in
  (Nat.leb m n && String.eqb (String.substring (n - m) m s) suffix)%bool.

(** [s.endswith((suf1, suf2, ...))] *)
Definition endswith_any (s : string) (suffixes : list string) : bool :=
  existsb (endswith s) suffixes.

(** [x in l] for a list of strings. *)
Definition in_list (x : string) (l : list string) : bool :=
  existsb (String.eqb x) l.

(** [p.rfind(c)]: index of the last occurrence of [c], or [-1]. *)
Fixpoint rfind_from (c : ascii) (p : list ascii) (i acc : Z) : Z :=
  match p with
  | [] => acc
  | x :: r => rfind_from c r (i + 1) (if Ascii.eqb x c then i else acc)
  end.

Definition rfind (c : ascii) (p : list ascii) : Z := rfind_from c p 0 (-1).

(** [p[i:j]] for [0 <= i]. *)
Definition slice (p : list ascii) (i j : Z) : list ascii :=
  firstn (Z.to_nat (j - i)) (skipn (Z.to_nat i) p).

(** [os.path.splitext] (posix): the extension starts at the last dot of
    the last path component, unless that component has only leading dots
    before it. *)
Definition splitext (p : string) : string * string :=
  let l := list_ascii_of_string p in
  let sepIndex := rfind "/" l in
  let dotIndex := rfind "." l in
  if ((sepIndex <? dotIndex)
      && existsb (fun c => negb (Ascii.eqb c ".")) (slice l (sepIndex + 1) dotIndex))%bool
  then (string_of_list_ascii (firstn (Z.to_nat dotIndex) l),
        string_of_list_ascii (skipn (Z.to_nat dotIndex) l))
  else (p, "").

(** [os.path.join(a, b)] (posix, two arguments). *)
Definition path_join (a b : string) : string :=
  if String.prefix "/" b then b
  else if (String.eqb a "" || endswith a "/")%bool then (a ++ b)%string
  else (a ++ "/" ++ b)%string.

End Py.

(** ** Python dictionaries, in insertion order *)

Section Dict.
Variable V : Type.

Definition dict := list (string * V).

Definition keys (d : dict) : list string := map fst d.

(** [d.get(k)] *)
Fixpoint dict_get (k : string) (d : dict) : option V :=
  match d with
  | [] => None
  | (k', v) :: r => if String.eqb k' k then Some v else dict_get k r
  end.

(** [d[k] = v]: an existing key keeps its position. *)
Fixpoint dict_set (k : string) (v : V) (d : dict) : dict :=
  match d with
  | [] => [(k, v)]
  | (k', v') :: r =>
      if String.eqb k' k then (k', v) :: r else (k', v') :: dict_set k v r
  end.
End Dict.

(** [d[k].append(x)]; [None] is the [KeyError] of [d[k]]. *)
Fixpoint dict_append (A : Type) (k : string) (x : A) (d : dict (list A))
  : option (dict (list A)) :=
  match d with
  | [] => None
  | (k', l) :: r =>
      if String.eqb k' k then Some ((k', l ++ [x]) :: r)
      else match dict_append k x r with
           | Some r' => Some ((k', l) :: r')
           | None => None
           end
  end.

(** The list stored under [k], empty when [k] is absent. *)
Definition dict_list (A : Type) (k : string) (d : dict (list A)) : list A :=
  match dict_get k d with Some l => l | None => [] end.

(** ** Exceptions and numpy floats *)

(** An exception is represented by its message, [str(e)]. *)
Definition Exn := string.

(** The value of [np.mean]: a number, or [nan] for an empty array.  The
    samples are 8-bit integers, so the sum is exact and the mean is kept as
    the reduced fraction sum / count. *)
Inductive npfloat :=
| Fin (q : Q)
| NaN.

Fixpoint np_sum (a : list Z) : Z :=
  match a with
  | [] => 0
  | x :: r => x + np_sum r
  end.

Definition np_mean (a : list Z) : npfloat :=
  match a with
  | [] => NaN
  | _ :: _ => Fin (Qred (Qmake (np_sum a) (Pos.of_nat (List.length a))))
  end.

(** [x < t] for a float [x] and an [int] threshold [t] that converts to a
    float; any comparison with [nan] is false.  The comparison first
    converts [t] to a float: for the thresholds of [converts_to_float]
    this does not raise, and the scores being means of bytes, comparing
    with the float nearest to [t] or with [t] itself gives the same
    answer.  For the other thresholds the conversion raises
    [OverflowError]; they are outside the statements about thresholds. *)
Definition float_lt (x : npfloat) (t : Z) : bool :=
  match x with
  | Fin q => negb (Qle_bool (inject_Z t) q)
  | NaN => false
  end.

(** The integers that convert to a float without [OverflowError]: those
    that round to a finite double, the largest double being
    [2^1024 - 2^971]. *)
Definition converts_to_float (t : Z) : Prop :=
  Z.abs t < 2 ^ 1024 - 2 ^ 970.

(** ** External collaborators *)

(** File contents read from the disk image. *)
Definition bytes := list Byte.byte.

(** What [file_entry.GetFileObject()] followed by [file_object.read()]
    does for one entry. *)
Inductive FileObject :=
| GetFileObject_raises (e : Exn)
| GetFileObject_None
| read_raises (e : Exn)
| read_returns (file_content : bytes).

(** The attributes [is_image_similar] reads from an entry. *)
Record File := {
  location : string;            (* file_entry.path_spec.location *)
  name : string;                (* file_entry.name *)
  file_object : FileObject
}.

(** A file entry of the provider: [IsDirectory()] is false for a
    [NonDirectory]; a [Directory] lists its [sub_file_entries] in the
    provider's order.  The tree is finite and acyclic by construction.
    The two methods are taken to answer: an error of the provider while
    a directory is listed is not represented, and the room that the
    methods need on the call stack is that of [CallStack] below. *)
#[local] Unset Elimination Schemes.
Inductive FileEntry :=
| NonDirectory (f : File)
| Directory (dir_location : string) (sub_file_entries : list FileEntry).
#[local] Set Elimination Schemes.

Definition IsDirectory (file_entry : FileEntry) : bool :=
  match file_entry with
  | NonDirectory _ => false
  | Directory _ _ => true
  end.

(** The operations of the image library on decoded images:
    [ImageChops.difference] and the conversion [np.array] (the samples of
    all pixels and channels; [np.mean] averages over all of them, so their
    arrangement is not kept). *)
Class ImageLibrary := {
  Image : Type;
  ImageChops_difference : Image -> Image -> Exn + Image;
  np_array : Image -> list Z
}.

(** The rest of the outside world: the decoder and encoder of the image
    library, the local file system and the virtual file system provider. *)
Class Environment (L : ImageLibrary) := {
  (* Image.open(BytesIO(file_content)) *)
  Image_open_bytes : bytes -> Exn + Image;
  (* Image.open(file_path) on the local file system *)
  Image_open : string -> Exn + Image;
  (* image.save(path): [Some e] when it raises *)
  Image_save : Image -> string -> option Exn;
  (* os.listdir(path) *)
  os_listdir : string -> Exn + list string;
  (* Resolver.OpenFileSystem on the path specification of the raw image
     (line 56), with the root entry that [GetRootFileEntry] (line 79)
     gives for the opened file system: an opened file system is taken to
     have a root entry *)
  OpenFileSystem : string -> Exn + FileEntry
}.

(** ** Program state *)

(** A line of the standard output.  Tracebacks and the formatted float of
    a report line are kept structured. *)
Inductive Output :=
| Line (s : string)
| Traceback (e : Exn)                          (* print(traceback.format_exc()) *)
| Stat (path : string) (difference : npfloat). (* f"\t{stat[0]:<80} \t\t difference: {stat[1]}" *)

Section Program.
Context {L : ImageLibrary} {E : Environment L}.

(** [res_tuple = (file_entry.path_spec.location, mean_diff)] *)
Definition res_tuple := (string * npfloat)%type.

Record State := {
  result : dict (list res_tuple);      (* the dict created by __main__ *)
  stdout : list Output;                (* lines printed so far *)
  saved : list (string * Image)        (* image.save calls that succeeded *)
}.

(** Statements that may raise: the state is threaded and survives an
    exception. *)
Definition Exec (A : Type) := State -> State * (Exn + A).

Definition ret {A} (a : A) : Exec A := fun st => (st, inr a).

Definition raise {A} (e : Exn) : Exec A := fun st => (st, inl e).

Definition bind {A B} (m : Exec A) (k : A -> Exec B) : Exec B :=
  fun st =>
    match m st with
    | (st', inr a) => k a st'
    | (st', inl e) => (st', inl e)
    end.

(** A call whose outcome does not depend on the state. *)
Definition call {A} (r : Exn + A) : Exec A := fun st => (st, r).

Definition print_to (o : Output) (st : State) : State :=
  {| result := result st; stdout := stdout st ++ [o]; saved := saved st |}.

Definition print (s : string) : Exec unit := fun st => (print_to (Line s) st, inr tt).

End Program.

Declare Scope exec_scope.
Delimit Scope exec_scope with exec.
Notation "x <- m ;; k" := (bind m (fun x => k))
  (at level 61, m at next level, right associativity) : exec_scope.
Notation "m ;; k" := (bind m (fun _ => k))
  (at level 61, right associativity) : exec_scope.

(** ** The program *)

Section Pipeline.
Context {L : ImageLibrary} {E : Environment L}.
Local Open Scope exec_scope.

(** [img_similarity_check(img1, img2, similarity_threshold)]
    (main.py, lines 14-30). *)
Definition img_similarity_check (img1 img2 : Image) (similarity_threshold : Z)
  : Exn + (bool * npfloat) :=
  match ImageChops_difference img2 img1 with
  | inl e => inl e
  | inr diff =>
      let diff_array := np_array diff in
      let mean_diff := np_mean diff_array in
      let is_similar := float_lt mean_diff similarity_threshold in
      inr (is_similar, mean_diff)
  end.

Definition valid_image_extensions : list string :=
  [".jpg"; ".jpeg"; ".png"; ".bmp"; ".gif"; ".tiff"].

(** [str(KeyError(key))]: the key between quotes (the [repr] of a key
    that holds no quote and no backslash). *)
Definition KeyError (key : string) : Exn := ("'" ++ key ++ "'")%string.

(** [result[reference_name].append(res_tuple)] *)
Definition result_append (reference_name : string) (t : res_tuple) : Exec unit :=
  fun st =>
    match dict_append reference_name t (result st) with
    | Some d => ({| result := d; stdout := stdout st; saved := saved st |}, inr tt)
    | None => (st, inl (KeyError reference_name))
    end.

(** [image.save(output_file_path)] *)
Definition save (image : Image) (output_file_path : string) : Exec unit :=
  fun st =>
    match Image_save image output_file_path with
    | Some e => (st, inl e)
    | None => ({| result := result st; stdout := stdout st;
                  saved := saved st ++ [(output_file_path, image)] |}, inr tt)
    end.

(** The body of the loop over [reference_image_list.items()]
    (lines 115-124). *)
Definition compare_reference (file_entry : File) (image : Image)
    (similarity_threshold : Z) (output_folder : string)
    (item : string * Image) : Exec unit :=
  let '(reference_name, reference_image) := item in
  r <- call (img_similarity_check image reference_image similarity_threshold) ;;
  let '(is_similar, mean_diff) := r in
  if is_similar then
    result_append reference_name (location file_entry, mean_diff) ;;
    print "Similar image identified! - See final report" ;;
    if negb (String.eqb output_folder "") then
      let output_file_path := Py.path_join output_folder (name file_entry) in
      save image output_file_path
    else ret tt
  else ret tt.

(** [for x in l: body(x)] *)
Fixpoint for_each {A} (body : A -> Exec unit) (l : list A) : Exec unit :=
  match l with
  | [] => ret tt
  | x :: r => body x ;; for_each body r
  end.

(** The [try] block of [is_image_similar] (lines 98-124).  The value is
    that of the [return] reached: [Some false] for [return False],
    [None] when the block ends without one. *)
Definition is_image_similar_try (file_entry : File)
    (reference_image_list : dict Image) (similarity_threshold : Z)
    (output_folder : string) : Exec (option bool) :=
  let file_ext := Py.lower (snd (Py.splitext (location file_entry))) in
  if negb (Py.in_list file_ext valid_image_extensions) then ret (Some false)
  else
    match file_object file_entry with
    | GetFileObject_raises e => raise e
    | GetFileObject_None => ret (Some false)
    | read_raises e => raise e
    | read_returns file_content =>
        image <- call (Image_open_bytes file_content) ;;
        for_each (compare_reference file_entry image similarity_threshold output_folder)
                 reference_image_list ;;
        ret None
    end.

(** The [except Exception as e] block (lines 126-130). *)
Definition comparing_error (file_entry : File) (e : Exn) (st : State) : State :=
  print_to (Traceback e)
    (print_to (Line ("Error Details: " ++ e))
       (print_to (Line ("Error while comparing image: " ++ location file_entry)) st)).

(** [is_image_similar(file_entry, reference_image_list,
    similarity_threshold, result, output_folder)] (lines 87-130). *)
Definition is_image_similar (file_entry : File)
    (reference_image_list : dict Image) (similarity_threshold : Z)
    (output_folder : string) (st : State) : State * option bool :=
  match is_image_similar_try file_entry reference_image_list
          similarity_threshold output_folder st with
  | (st', inr r) => (st', r)
  | (st', inl e) => (comparing_error file_entry e st', Some false)
  end.

(** [traverse_file_entries] (lines 133-147) on a call stack deep enough
    for the tree; the value of [is_image_similar] is dropped.  The
    function is recursive, one call per level of directories: what the
    recursion limit of the interpreter makes of it is
    [traverse_file_entries_on_stack] below. *)
Fixpoint traverse_file_entries (file_entry : FileEntry)
    (reference_image_list : dict Image) (similarity_threshold : Z)
    (output_folder : string) (st : State) {struct file_entry} : State :=
  match file_entry with
  | NonDirectory f =>
      fst (is_image_similar f reference_image_list similarity_threshold
             output_folder st)
  | Directory _ subs =>
      (fix loop (l : list FileEntry) (st : State) {struct l} : State :=
         match l with
         | [] => st
         | sub_file_entry :: r =>
             loop r (traverse_file_entries sub_file_entry reference_image_list
                       similarity_threshold output_folder st)
         end) subs st
  end.

(** [try: body / except Exception as e: handler(e)], continued by [k]
    when the body ends normally. *)
Definition try_except {A B} (body : Exec A) (handler : Exn -> Exec B)
    (k : A -> Exec B) : Exec B :=
  fun st =>
    match body st with
    | (st', inr a) => k a st'
    | (st', inl e) => handler e st'
    end.

(** [result[file_path] = []] *)
Definition result_set (file_path : string) (v : list res_tuple) : Exec unit :=
  fun st => ({| result := dict_set file_path v (result st);
                stdout := stdout st; saved := saved st |}, inr tt).

(** The loop that loads the reference images (lines 63-68), with the
    local dict [reference_image_list] as an accumulator. *)
Fixpoint load_references (reference_image_folder_path : string)
    (filenames : list string) (reference_image_list : dict Image)
  : Exec (dict Image) :=
  match filenames with
  | [] => ret reference_image_list
  | filename :: rest =>
      if Py.endswith_any (Py.lower filename) valid_image_extensions then
        let file_path := Py.path_join reference_image_folder_path filename in
        image <- call (Image_open file_path) ;;
        result_set file_path [] ;;
        load_references reference_image_folder_path rest
          (dict_set file_path image reference_image_list)
      else
        load_references reference_image_folder_path rest reference_image_list
  end.

(** The body of the [try] of [find_similar_images] (lines 60-68). *)
Definition loading (reference_image_folder_path : string) : Exec (dict Image) :=
  filenames <- call (os_listdir reference_image_folder_path) ;;
  load_references reference_image_folder_path filenames [].

Definition traverse (root_file_entry : FileEntry)
    (reference_image_list : dict Image) (similarity_threshold : Z)
    (output_folder : string) : Exec (option bool) :=
  fun st =>
    (traverse_file_entries root_file_entry reference_image_list
       similarity_threshold output_folder st, inr None).

(** [find_similar_images] (lines 33-84).  An exception of
    [OpenFileSystem] is not caught here.  The root entry, which the
    source asks for after the references are loaded (line 79), is the one
    the environment gives with the opened file system; the traversal is
    [traverse_file_entries], that is, on a call stack deep enough for
    the tree. *)
Definition find_similar_images (disk_img_path reference_image_folder_path : string)
    (similarity_threshold : Z) (output_folder : string) : Exec (option bool) :=
  root_file_entry <- call (OpenFileSystem disk_img_path) ;;
  print "File system parse completed." ;;
  try_except (loading reference_image_folder_path)
    (fun e =>
       print "Error while loading image: " ;;
       print ("Error Details: " ++ e) ;;
       (fun st => (print_to (Traceback e) st, inr tt)) ;;
       ret (Some false))
    (fun reference_image_list =>
       print "Reference images loading completed." ;;
       print "Disk root directory loading completed." ;;
       print "Start scanning similar images on the disk image - it may take a long time depending on the size of disk." ;;
       traverse root_file_entry reference_image_list similarity_threshold
         output_folder).

(** The final report (lines 204-214). *)
Definition report (result : dict (list res_tuple)) : list Output :=
  (if negb (Nat.eqb (List.length result) 0)
   then [Line "Final Report: "]
   else [Line "No similar images identified. Try to adjust threshold or add more reference images."])
  ++ flat_map
       (fun item : string * list res_tuple =>
          let '(reference_image_name, similar_images) := item in
          if negb (Nat.eqb (List.length similar_images) 0)
          then Line ("For reference Image " ++ reference_image_name ++ ": ")
               :: map (fun stat : res_tuple => Stat (fst stat) (snd stat)) similar_images
          else [])
       result.

Definition print_all (os : list Output) (st : State) : State :=
  {| result := result st; stdout := stdout st ++ os; saved := saved st |}.

Definition usage (argv0 : string) : string :=
  "Usage: " ++ argv0 ++ " -d <disk_image_path> -r <reference_image_folder> -i [optional threshold default = 10] -o [optional output folder]".

(** The state in which [find_similar_images] is called: [result = {}]. *)
Definition initial_state : State :=
  {| result := []; stdout := []; saved := [] |}.

(** The [__main__] block once the options are parsed (lines 193-214):
    the final state and the exit status of the process.  An exception
    that leaves [find_similar_images] ends the process with status 1. *)
Definition main (argv0 disk_image_path reference_image_folder_path : string)
    (similarity_threshold : Z) (output_folder : string) : State * Z :=
  if (String.eqb disk_image_path "" || String.eqb reference_image_folder_path "")%bool
  then (print_all [Line "missing required parameters."; Line (usage argv0)]
          initial_state, 2)
  else
    match find_similar_images disk_image_path reference_image_folder_path
            similarity_threshold output_folder initial_state with
    | (st, inl e) => (st, 1)
    | (st, inr _) => (print_all (report (result st)) st, 0)
    end.

End Pipeline.

(** ** The recursion limit *)

(** [RecursionError], represented by its message. *)
Definition RecursionError : Exn := "maximum recursion depth exceeded".

(** What the calls made by [traverse_file_entries] need of the
    interpreter's call stack, in frames: [provider_frames] for the
    methods of the provider ([IsDirectory()], the iteration of
    [sub_file_entries]), [scoring_frames] for [is_image_similar] with
    all that it calls.  With fewer than [provider_frames] frames left the
    provider's method raises [RecursionError] out of
    [traverse_file_entries].  With fewer than [scoring_frames] frames
    left for a leaf, the exception is raised somewhere below
    [is_image_similar], whose handler catches it and prints, which needs
    frames again: the state this leaves and the exception that escapes,
    if any, are those of [starved], on which nothing is assumed. *)
Class CallStack (L : ImageLibrary) := {
  provider_frames : nat;
  scoring_frames : nat;
  starved : nat -> File -> dict Image -> Z -> string -> State -> State * option Exn
}.

Section RecursionLimit.
Context {L : ImageLibrary} {E : Environment L} {C : CallStack L}.

(** [traverse_file_entries] (lines 133-147) called with [frames] frames
    left on the call stack.  The call takes one frame, or raises
    [RecursionError] when none is left; the calls it makes have the
    remaining ones.  The value is the state reached and the exception
    that leaves the function, if any: no [try] surrounds lines 143-147,
    so an exception raised for a sub-entry ends the loop of every
    directory above it, and neither [find_similar_images] nor [__main__]
    catches it. *)
Fixpoint traverse_file_entries_on_stack (frames : nat) (file_entry : FileEntry)
    (reference_image_list : dict Image) (similarity_threshold : Z)
    (output_folder : string) (st : State) {struct frames} : State * option Exn :=
  match frames with
  | O => (st, Some RecursionError)
  | S remaining =>
      if negb (Nat.leb provider_frames remaining) then (st, Some RecursionError)
      else
        match file_entry with
        | NonDirectory f =>
            if Nat.leb scoring_frames remaining then
              (fst (is_image_similar f reference_image_list similarity_threshold
                      output_folder st), None)
            else
              starved remaining f reference_image_list similarity_threshold
                output_folder st
        | Directory _ subs =>
            (fix loop (l : list FileEntry) (st : State) {struct l}
               : State * option Exn :=
               match l with
               | [] => (st, None)
               | sub_file_entry :: r =>
                   match traverse_file_entries_on_stack remaining sub_file_entry
                           reference_image_list similarity_threshold
                           output_folder st with
                   | (st', None) => loop r st'
                   | (st', Some e) => (st', Some e)
                   end
               end) subs st
        end
  end.

End RecursionLimit.

(** ** An 8-bit model of the image library *)

Module Pillow.

(** A decoded image: [height] rows of [width * bands] 8-bit samples. *)
Record Bitmap := {
  bands : nat;
  width : nat;
  height : nat;
  rows : list (list Z)
}.

Definition wf (im : Bitmap) : Prop :=
  (0 < bands im)%nat /\ (0 < width im)%nat /\ (0 < height im)%nat /\
  List.length (rows im) = height im /\
  Forall (fun row => List.length row = (width im * bands im)%nat
                     /\ Forall (fun x => 0 <= x < 256) row) (rows im).

(** [zip_with f a b] stops at the end of the shorter list. *)
Fixpoint zip_with {A B C} (f : A -> B -> C) (a : list A) (b : list B) : list C :=
  match a, b with
  | x :: a', y :: b' => f x y :: zip_with f a' b'
  | _, _ => []
  end.

(** One sample of the difference: [abs(in1 - in2)], clipped to a byte. *)
Definition chop (in1 in2 : Z) : Z := Z.min 255 (Z.max 0 (Z.abs (in1 - in2))).

(** Modelled from the spec: [ImageChops.difference] belongs to the image
    library, which is not part of the repository.  Sections 3 and 4.3:
    images are grids of 8-bit samples, and the "pixel-wise absolute
    difference is computed per channel".  Where the spec leaves the
    behaviour to "the underlying decode/diff step", the definition
    follows the library and not the policy that section 4.3 asks of a
    reimplementation: on images of differing dimensions the library
    computes the difference on the region both images cover (the smaller
    width and the smaller height, from the top-left corner), and it
    raises "images do not match" when the numbers of bands differ.  A
    [Bitmap] stands for an 8-bit image, whose samples are bytes ([wf]);
    images with other sample types, on which the library raises "image
    has wrong mode", are not represented. *)
Definition difference (image1 image2 : Bitmap) : Exn + Bitmap :=
  if Nat.eqb (bands image1) (bands image2) then
    inr {| bands := bands image1;
           width := Nat.min (width image1) (width image2);
           height := Nat.min (height image1) (height image2);
           rows := zip_with (zip_with chop) (rows image1) (rows image2) |}
  else inl "images do not match".

(** The top-left region of [w] by [h] pixels of an image. *)
Definition crop (w h : nat) (im : Bitmap) : Bitmap :=
  {| bands := bands im;
     width := w;
     height := h;
     rows := map (firstn (w * bands im)) (firstn h (rows im)) |}.

#[export] Instance library : ImageLibrary := {|
  Image := Bitmap;
  ImageChops_difference := difference;
  np_array := fun im => List.concat (rows im)
|}.

End Pillow.

(** ** Vocabulary of the specification *)

(** Induction on file trees, with the induction hypothesis for every
    entry of a directory. *)
Section FileEntryInduction.
Variable P : FileEntry -> Prop.
Hypothesis P_file : forall f, P (NonDirectory f).
Hypothesis P_dir : forall loc subs, Forall P subs -> P (Directory loc subs).

Fixpoint FileEntry_ind (file_entry : FileEntry) : P file_entry :=
  match file_entry with
  | NonDirectory f => P_file f
  | Directory loc subs =>
      P_dir loc
        ((fix all (l : list FileEntry) : Forall P l :=
            match l with
            | [] => Forall_nil P
            | x :: r => Forall_cons x (FileEntry_ind x) (all r)
            end) subs)
  end.
End FileEntryInduction.

(** The leaf (non-directory) entries of a tree in depth-first order,
    children taken in the order the provider reports them. *)
Fixpoint leaves (file_entry : FileEntry) : list File :=
  match file_entry with
  | NonDirectory f => [f]
  | Directory _ subs => flat_map leaves subs
  end.

(** The number of calls of [traverse_file_entries] that are active when
    the deepest entry of a tree is reached: 1 for a leaf or an empty
    directory, one more for every level of directories above. *)
Fixpoint depth (file_entry : FileEntry) : nat :=
  match file_entry with
  | NonDirectory _ => 1
  | Directory _ subs => S (list_max (map depth subs))
  end.

(** The number of leaf entries: the sum over the whole tree. *)
Fixpoint leaf_count (file_entry : FileEntry) : nat :=
  match file_entry with
  | NonDirectory _ => 1
  | Directory _ subs => list_sum (map leaf_count subs)
  end.

(** The keys of [d] after [d[k] = v]. *)
Fixpoint keys_add (k : string) (ks : list string) : list string :=
  match ks with
  | [] => [k]
  | k' :: r => if String.eqb k' k then k' :: r else k' :: keys_add k r
  end.

(** Every list of a result dict is empty. *)
Definition all_empty (A : Type) (d : dict (list A)) : Prop :=
  forall k v, dict_get k d = Some v -> v = [].

Section Vocabulary.
Context {L : ImageLibrary} {E : Environment L}.

(** Scoring a sequence of leaf entries one after the other. *)
Definition scan (files : list File) (reference_image_list : dict Image)
    (similarity_threshold : Z) (output_folder : string) (st : State) : State :=
  fold_left
    (fun st f => fst (is_image_similar f reference_image_list
                        similarity_threshold output_folder st))
    files st.

(** A result dict with the given keys and no match yet. *)
Definition no_match_yet (ks : list string) : State :=
  {| result := map (fun k => (k, [])) ks; stdout := []; saved := [] |}.

(** The records one leaf entry contributes to the list of reference
    [reference_name]: what scoring that entry alone appends to empty
    lists. *)
Definition matches_of (f : File) (reference_image_list : dict Image)
    (similarity_threshold : Z) (output_folder : string) (ks : list string)
    (reference_name : string) : list res_tuple :=
  dict_list reference_name
    (result (fst (is_image_similar f reference_image_list similarity_threshold
                    output_folder (no_match_yet ks)))).

(** The state in which the traversal starts: the three lines printed
    between the loading of the references and the traversal. *)
Definition scan_start (st : State) : State :=
  print_to (Line "Start scanning similar images on the disk image - it may take a long time depending on the size of disk.")
    (print_to (Line "Disk root directory loading completed.")
       (print_to (Line "Reference images loading completed.") st)).

(** Every list of the second state starts with the list of the first. *)
Definition extends (st st' : State) : Prop :=
  forall n, exists D, dict_list n (result st') = dict_list n (result st) ++ D.

(** Two runs add the same records to every list. *)
Definition same_delta (a a' b b' : State) : Prop :=
  forall n, exists D,
    dict_list n (result a') = dict_list n (result a) ++ D /\
    dict_list n (result b') = dict_list n (result b) ++ D.

(** The statement shared by the loop body, the loop and the whole
    function: started on two states with the same keys, a computation
    ends the same way in both, keeps the keys and adds the same records. *)
Definition uniform {A} (m : Exec A) : Prop :=
  forall st1 st2, keys (result st1) = keys (result st2) ->
    snd (m st1) = snd (m st2) /\
    keys (result (fst (m st1))) = keys (result st1) /\
    keys (result (fst (m st2))) = keys (result st2) /\
    same_delta st1 (fst (m st1)) st2 (fst (m st2)).

(** Two states with the same keys, every list of the first included in
    the list of the second. *)
Definition grows (s1 s2 : State) : Prop :=
  keys (result s1) = keys (result s2) /\
  forall n, incl (dict_list n (result s1)) (dict_list n (result s2)).

End Vocabulary.

(** The notice of the final report. *)
Definition no_match_notice : string :=
  "No similar images identified. Try to adjust threshold or add more reference images.".

(** [output_folder != ""]: an output folder is configured. *)
Definition output_folder_set (output_folder : string) : bool :=
  negb (String.eqb output_folder "").

(** "The score is strictly less than the threshold", as a proposition. *)
Definition below (x : npfloat) (t : Z) : Prop :=
  match x with
  | Fin q => (q < inject_Z t)%Q
  | NaN => False
  end.

(** ** A small world for examples *)

Module Demo.
Import Pillow.

Definition sample (b : Byte.byte) : Z := Z.of_N (Byte.to_N b).

(** A toy file format: the first byte is the number of bands, the other
    bytes are the samples of a single row of pixels. *)
Definition decode (file_content : bytes) : Exn + Bitmap :=
  match file_content with
  | [] => inl "cannot identify image file"
  | b :: samples =>
      let n := N.to_nat (Byte.to_N b) in
      if Nat.eqb n 0 then inl "cannot identify image file"
      else inr {| bands := n;
                  width := Nat.div (List.length samples) n;
                  height := 1;
                  rows := [map sample samples] |}
  end.

(** A world given by four tables: the listing of local folders, the
    contents of local files, the root entry of each disk image, and the
    paths [image.save] cannot write with the error it raises. *)
Definition world (folders : dict (list string)) (files : dict bytes)
    (disks : dict FileEntry) (unwritable : dict Exn)
  : Environment Pillow.library := {|
  Image_open_bytes := decode;
  Image_open := fun p =>
    match dict_get p files with
    | Some c => decode c
    | None => inl "No such file or directory"
    end;
  Image_save := fun _ p => dict_get p unwritable;
  os_listdir := fun p =>
    match dict_get p folders with
    | Some l => inr l
    | None => inl "No such file or directory"
    end;
  OpenFileSystem := fun p =>
    match dict_get p disks with
    | Some root => inr root
    | None => inl "Unable to open file system"
    end
|}.

(** Gray images of one row. *)
Definition gray (samples : list Byte.byte) : bytes := Byte.x01 :: samples.

Definition a_jpg : File :=
  {| location := "/pics/a.jpg"; name := "a.jpg";
     file_object := read_returns (gray [Byte.x0a; Byte.x14]) |}.

Definition broken_jpg : File :=
  {| location := "/pics/broken.jpg"; name := "broken.jpg";
     file_object := read_returns [] |}.

Definition readme_txt : File :=
  {| location := "/docs/readme.txt"; name := "readme.txt";
     file_object := read_returns [Byte.x68; Byte.x69] |}.

Definition disk_root : FileEntry :=
  Directory "/"
    [Directory "/pics" [NonDirectory broken_jpg; NonDirectory a_jpg];
     Directory "/docs" [NonDirectory readme_txt]].

Definition disks : dict FileEntry := [("disk.raw", disk_root)].

(** [refs]: two references, at distance 5 and 0 of [a_jpg];
    [far]: one reference far from it; [empty]: no image file. *)
Definition folders : dict (list string) :=
  [("refs", ["ref1.jpg"; "notes.txt"; "REF2.PNG"]);
   ("far", ["white.bmp"]);
   ("empty", ["notes.txt"])].

Definition files : dict bytes :=
  [("refs/ref1.jpg", gray [Byte.x0f; Byte.x19]);
   ("refs/REF2.PNG", gray [Byte.x0a; Byte.x14]);
   ("far/white.bmp", gray [Byte.xff; Byte.xff])].

(** Nothing fails to be written. *)
Definition quiet : Environment Pillow.library := world folders files disks [].

(** The export of [a.jpg] fails. *)
Definition readonly : Environment Pillow.library :=
  world folders files disks [("out/a.jpg", "Permission denied")].

End Demo.

(** ** Vocabulary for the filters *)

(** The test of [is_image_similar] on the extension of an entry
    (lines 99-103). *)
Definition is_candidate (f : File) : bool :=
  Py.in_list (Py.lower (snd (Py.splitext (location f)))) valid_image_extensions.

(** The test of [find_similar_images] on a name of the reference folder
    (line 64). *)
Definition is_image_name (filename : string) : bool :=
  Py.endswith_any (Py.lower filename) valid_image_extensions.

Section MatchVocabulary.
Context {L : ImageLibrary} {E : Environment L}.

(** [t] is a record that entry [f] earns under reference [n]: [f] has an
    image extension, its content decodes to an image, [n] names a
    reference against which that image is similar, and [t] holds the
    location of [f] and the score of the pair. *)
Definition is_match (f : File) (reference_image_list : dict Image) (T : Z)
    (n : string) (t : res_tuple) : Prop :=
  is_candidate f = true /\
  fst t = location f /\
  exists file_content image reference_image,
    file_object f = read_returns file_content /\
    Image_open_bytes file_content = inr image /\
    In (n, reference_image) reference_image_list /\
    img_similarity_check image reference_image T = inr (true, snd t).

(** [x] is a file that the export of entry [f] writes: an output folder
    is configured, [f] decodes to the image written, the path is the
    output folder joined with the name of [f], [image.save] succeeds, and
    the image is similar to some reference. *)
Definition is_export (f : File) (reference_image_list : dict Image) (T : Z)
    (output_folder : string) (x : string * Image) : Prop :=
  output_folder_set output_folder = true /\
  fst x = Py.path_join output_folder (name f) /\
  Image_save (snd x) (fst x) = None /\
  exists file_content n reference_image mean_diff,
    file_object f = read_returns file_content /\
    Image_open_bytes file_content = inr (snd x) /\
    In (n, reference_image) reference_image_list /\
    img_similarity_check (snd x) reference_image T = inr (true, mean_diff).

End MatchVocabulary.

(** A reference folder whose second image file cannot be opened. *)
Module MoreDemo.

Definition mixed : Environment Pillow.library :=
  Demo.world [("mixed", ["ref1.jpg"; "bad.png"; "later.gif"])]
             [("mixed/ref1.jpg", Demo.gray [Byte.x0f; Byte.x19]);
              ("mixed/later.gif", Demo.gray [Byte.x0a; Byte.x14])]
             Demo.disks [].

End MoreDemo.

(** A disk image with directories nested deeper than the default
    recursion limit of 1000, listed before the directory of [a.jpg], and
    a call stack for examples. *)
Module DeepDemo.

(** [n + 1] directories, each one the only entry of the one above. *)
Fixpoint nested_directories (n : nat) (dir_location : string) : FileEntry :=
  match n with
  | O => Directory dir_location []
  | S m => Directory dir_location
             [nested_directories m (dir_location ++ "/d")%string]
  end.

Definition disk_root : FileEntry :=
  Directory "/"
    [nested_directories 999 "/d";
     Directory "/pics" [NonDirectory Demo.a_jpg]].

Definition stack : CallStack Pillow.library := {|
  provider_frames := 4;
  scoring_frames := 40;
  starved := fun _ _ _ _ _ st => (st, Some RecursionError)
|}.

End DeepDemo.

(** ** The command line (lines 150-196) *)

(** The part of the standard module [getopt] that [getopt.getopt(args,
    shortopts)] runs when no long option is declared.  An exception is
    [GetoptError], represented by its message. *)
Module Getopt.

(** [short_has_arg(opt, shortopts)] *)
Fixpoint short_has_arg (opt : ascii) (shortopts : string) : Exn + bool :=
  match shortopts with
  | EmptyString => inl ("option -" ++ String opt " not recognized")%string
  | String c r =>
      if (Ascii.eqb opt c && negb (Ascii.eqb c ":"))%bool
      then inr (String.prefix ":" r)
      else short_has_arg opt r
  end.

(** [do_shorts(opts, optstring, shortopts, args)]: the options packed in
    one argument; an option that takes a value takes the rest of the
    argument, or the next argument when nothing is left. *)
Fixpoint do_shorts (opts : list (string * string)) (optstring : string)
    (shortopts : string) (args : list string)
  : Exn + (list (string * string) * list string) :=
  match optstring with
  | EmptyString => inr (opts, args)
  | String opt optstring' =>
      match short_has_arg opt shortopts with
      | inl e => inl e
      | inr true =>
          match optstring' with
          | EmptyString =>
              match args with
              | [] => inl ("option -" ++ String opt " requires argument")%string
              | optarg :: args' => inr (opts ++ [(String "-" (String opt ""), optarg)], args')
              end
          | _ => inr (opts ++ [(String "-" (String opt ""), optstring')], args)
          end
      | inr false =>
          do_shorts (opts ++ [(String "-" (String opt ""), "")]) optstring'
            shortopts args
      end
  end.

(** [s[1:]] *)
Definition tail (s : string) : string :=
  match s with
  | EmptyString => ""
  | String _ r => r
  end.

(** The [while] loop of [getopt.getopt]; every iteration removes at least
    one argument, so [fuel] iterations suffice when [fuel] is the number
    of arguments (and with no argument left the loop has ended). *)
Fixpoint getopt_loop (fuel : nat) (opts : list (string * string))
    (args : list string) (shortopts : string)
  : Exn + (list (string * string) * list string) :=
  match fuel with
  | O => inr (opts, args)
  | S fuel' =>
      match args with
      | [] => inr (opts, args)
      | a :: rest =>
          if (negb (String.prefix "-" a) || String.eqb a "-")%bool
          then inr (opts, args)
          else if String.eqb a "--" then inr (opts, rest)
          else if String.prefix "--" a
          then inl ("option " ++ a ++ " not recognized")%string
          else
            match do_shorts opts (tail a) shortopts rest with
            | inl e => inl e
            | inr (opts', args') => getopt_loop fuel' opts' args' shortopts
            end
      end
  end.

(** [getopt.getopt(args, shortopts)] *)
Definition getopt (args : list string) (shortopts : string)
  : Exn + (list (string * string) * list string) :=
  getopt_loop (List.length args) [] args shortopts.

End Getopt.

(** [x in s] for two strings: [x] is a substring of [s]. *)
Fixpoint str_in (x s : string) : bool :=
  (String.prefix x s
   || match s with
      | EmptyString => false
      | String _ r => str_in x r
      end)%bool.

(** What the option loop needs from the interpreter and the local file
    system: [int(arg)], and [os.makedirs(path, exist_ok=True)] ([Some e]
    when it raises [OSError]). *)
Class Shell := {
  py_int : string -> Exn + Z;
  os_makedirs : string -> option Exn
}.

(** The four variables set by the options, with their initial values
    (lines 161-164). *)
Record Options := {
  opt_disk_image_path : string;
  opt_reference_image_folder_path : string;
  opt_similarity_threshold : Z;
  opt_output_folder : string
}.

Definition default_options : Options :=
  {| opt_disk_image_path := "";
     opt_reference_image_folder_path := "";
     opt_similarity_threshold := 10;
     opt_output_folder := "" |}.

(** How the loop over the options ends: normally, by [sys.exit()] after
    [print_usage()], or by an exception that nothing catches.  [made]
    lists the directories created so far. *)
Inductive Parsed :=
| Continue (o : Options) (made : list string)
| Help (made : list string)
| Uncaught (e : Exn) (made : list string).

Section OptionLoop.
Context {S : Shell}.

(** The loop [for opt, arg in opts] (lines 176-191). *)
Fixpoint process_options (opts : list (string * string)) (o : Options)
    (made : list string) : Parsed :=
  match opts with
  | [] => Continue o made
  | (opt, arg) :: rest =>
      if String.eqb opt "-h" then Help made
      else if str_in opt "-d" then
        process_options rest
          {| opt_disk_image_path := arg;
             opt_reference_image_folder_path := opt_reference_image_folder_path o;
             opt_similarity_threshold := opt_similarity_threshold o;
             opt_output_folder := opt_output_folder o |} made
      else if str_in opt "-r" then
        process_options rest
          {| opt_disk_image_path := opt_disk_image_path o;
             opt_reference_image_folder_path := arg;
             opt_similarity_threshold := opt_similarity_threshold o;
             opt_output_folder := opt_output_folder o |} made
      else if str_in opt "-i" then
        match py_int arg with
        | inl e => Uncaught e made
        | inr n =>
            process_options rest
              {| opt_disk_image_path := opt_disk_image_path o;
                 opt_reference_image_folder_path := opt_reference_image_folder_path o;
                 opt_similarity_threshold := n;
                 opt_output_folder := opt_output_folder o |} made
        end
      else if str_in opt "-o" then
        match os_makedirs arg with
        | Some e =>
            Uncaught ("Failed to create the output directory: " ++ e)%string made
        | None =>
            process_options rest
              {| opt_disk_image_path := opt_disk_image_path o;
                 opt_reference_image_folder_path := opt_reference_image_folder_path o;
                 opt_similarity_threshold := opt_similarity_threshold o;
                 opt_output_folder := arg |} (made ++ [arg])
        end
      else process_options rest o made
  end.

End OptionLoop.

(** The outcome of a run of the program: the final state, the exit status
    of the process and the directories created by the options. *)
Record Run {L : ImageLibrary} := {
  final : State;
  exit_status : Z;
  created : list string
}.

Section Program.
Context {L : ImageLibrary} {E : Environment L} {S : Shell}.

(** [print_usage(); sys.exit(status)] *)
Definition usage_exit (argv0 : string) (status : Z) (made : list string) : Run :=
  {| final := print_all [Line (usage argv0)] initial_state;
     exit_status := status;
     created := made |}.

(** The [__main__] block (lines 160-214) on [sys.argv = argv0 :: args].
    An exception that nothing catches ends the process with status 1. *)
Definition program (argv0 : string) (args : list string) : Run :=
  if Nat.ltb (1 + List.length args) 3 then usage_exit argv0 1 []
  else
    match Getopt.getopt args "hd:r:i:o:" with
    | inl _ => usage_exit argv0 2 []
    | inr (opts, _) =>
        match process_options opts default_options [] with
        | Help made => usage_exit argv0 0 made
        | Uncaught e made =>
            {| final := initial_state; exit_status := 1; created := made |}
        | Continue o made =>
            let run := main argv0 (opt_disk_image_path o)
                         (opt_reference_image_folder_path o)
                         (opt_similarity_threshold o) (opt_output_folder o) in
            {| final := fst run; exit_status := snd run; created := made |}
        end
    end.

End Program.

(** ** Vocabulary for the command line *)

(** The arguments that spell an option: the flag alone for [-h], the flag
    followed by its value for the others. *)
Definition spell (option : string * string) : list string :=
  if String.eqb (fst option) "-h" then [fst option] else [fst option; snd option].

(** An option of the program, as [getopt] returns it. *)
Definition known_option (option : string * string) : Prop :=
  (fst option = "-h" /\ snd option = "") \/
  In (fst option) ["-d"; "-r"; "-i"; "-o"].

(** The options that set a variable. *)
Definition sets_a_variable (option : string * string) : Prop :=
  In (fst option) ["-d"; "-r"; "-i"; "-o"].

(** The value of the last occurrence of [flag] among [opts], or
    [default]. *)
Fixpoint last_value (flag : string) (opts : list (string * string))
    (default : string) : string :=
  match opts with
  | [] => default
  | (opt, arg) :: rest =>
      last_value flag rest (if String.eqb opt flag then arg else default)
  end.

(** The values of all the occurrences of [flag], in order. *)
Definition values_of (flag : string) (opts : list (string * string)) : list string :=
  map snd (filter (fun option => String.eqb (fst option) flag) opts).

Section ThresholdVocabulary.
Context {S : Shell}.

(** The integer given by the last [-i] among [opts], or [default]. *)
Fixpoint last_threshold (opts : list (string * string)) (default : Z) : Z :=
  match opts with
  | [] => default
  | (opt, arg) :: rest =>
      last_threshold rest
        (if String.eqb opt "-i"
         then match py_int arg with inr n => n | inl _ => default end
         else default)
  end.

End ThresholdVocabulary.

(** A shell for examples: [int] reads decimal digits, and no directory
    can be created under [/proc]. *)
Module DemoShell.

Fixpoint digits (s : string) (acc : Z) : option Z :=
  match s with
  | EmptyString => Some acc
  | String c r =>
      let n := Z.of_nat (nat_of_ascii c) in
      if ((48 <=? n) && (n <=? 57))%bool then digits r (10 * acc + (n - 48))
      else None
  end.

Definition shell : Shell := {|
  py_int := fun s =>
    match s with
    | EmptyString => inl "invalid literal for int() with base 10: ''"
    | _ => match digits s 0 with
           | Some n => inr n
           | None => inl ("invalid literal for int() with base 10: '" ++ s ++ "'")%string
           end
    end;
  os_makedirs := fun p =>
    if String.prefix "/proc" p then Some "Permission denied" else None
|}.

End DemoShell.

(** * Properties *)

(** ** Dictionaries *)

Section DictFacts.
Variable A : Type.
Implicit Types (d : dict (list A)) (k : string) (x : A).

Lemma dict_append_keys k x d d' :
  dict_append k x d = Some d' -> keys d' = keys d.
Proof.
  revert d'; induction d as [|[k0 l] r IH]; intros d'; simpl; [discriminate|].
  destruct (String.eqb k0 k).
  - intros [= <-]; reflexivity.
  - destruct (dict_append k x r) as [r'|]; [|discriminate].
    intros [= <-]; simpl; f_equal; apply IH; reflexivity.
Qed.

Lemma dict_append_present k x d :
  In k (keys d) -> exists d', dict_append k x d = Some d'.
Proof.
  induction d as [|[k0 l] r IH]; simpl; [tauto|].
  intros H; destruct (String.eqb_spec k0 k) as [->|Hne]; [eauto|].
  destruct H as [H|H]; [congruence|].
  destruct (IH H) as [r' ->]; eauto.
Qed.

Lemma dict_append_absent k x d :
  ~ In k (keys d) -> dict_append k x d = None.
Proof.
  induction d as [|[k0 l] r IH]; simpl; [reflexivity|].
  intros H; destruct (String.eqb_spec k0 k) as [->|Hne]; [tauto|].
  rewrite IH; tauto.
Qed.

(** Whether [d[k].append(x)] raises depends on the keys of [d] only. *)
Lemma dict_append_same_keys k x d1 d2 :
  keys d1 = keys d2 ->
  (dict_append k x d1 = None <-> dict_append k x d2 = None).
Proof.
  intros Hk.
  assert (Hdec : forall d, {In k (keys d)} + {~ In k (keys d)})
    by (intros d; apply in_dec, string_dec).
  split; intros H.
  - destruct (Hdec d2) as [Hin|Hout]; [|apply dict_append_absent; exact Hout].
    rewrite <- Hk in Hin.
    destruct (@dict_append_present k x d1 Hin) as [d' Hd']; congruence.
  - destruct (Hdec d1) as [Hin|Hout]; [|apply dict_append_absent; exact Hout].
    rewrite Hk in Hin.
    destruct (@dict_append_present k x d2 Hin) as [d' Hd']; congruence.
Qed.

Lemma dict_append_get k x d d' :
  dict_append k x d = Some d' ->
  exists l, dict_get k d = Some l /\ dict_get k d' = Some (l ++ [x]).
Proof.
  revert d'; induction d as [|[k0 l] r IH]; intros d'; simpl; [discriminate|].
  destruct (String.eqb k0 k) eqn:Hk.
  - intros [= <-]; simpl; rewrite Hk; eauto.
  - destruct (dict_append k x r) as [r'|]; [|discriminate].
    intros [= <-]; simpl; rewrite Hk; apply IH; reflexivity.
Qed.

Lemma dict_append_get_other k k' x d d' :
  dict_append k x d = Some d' -> k' <> k -> dict_get k' d' = dict_get k' d.
Proof.
  revert d'; induction d as [|[k0 l] r IH]; intros d'; simpl; [discriminate|].
  destruct (String.eqb_spec k0 k) as [->|Hk].
  - intros [= <-] Hne; simpl.
    destruct (String.eqb_spec k k'); [congruence|reflexivity].
  - destruct (dict_append k x r) as [r'|]; [|discriminate].
    intros [= <-] Hne; simpl.
    destruct (String.eqb k0 k'); [reflexivity|apply IH; auto].
Qed.

(** The list under every key after an append: one more element under
    [k], the same list elsewhere. *)
Lemma dict_append_list k x d d' n :
  dict_append k x d = Some d' ->
  dict_list n d' = dict_list n d ++ (if String.eqb n k then [x] else []).
Proof.
  intros H; unfold dict_list.
  destruct (String.eqb_spec n k) as [->|Hne].
  - destruct (@dict_append_get k x d d' H) as (l & -> & ->); reflexivity.
  - rewrite (@dict_append_get_other k n x d d' H Hne), app_nil_r; reflexivity.
Qed.

Lemma dict_get_in_keys (V : Type) k (d : dict V) :
  In k (keys d) <-> exists v, dict_get k d = Some v.
Proof.
  induction d as [|[k0 v0] r IH]; simpl.
  - split; [tauto|intros [v Hv]; discriminate].
  - destruct (String.eqb_spec k0 k) as [->|Hne].
    + split; eauto.
    + rewrite <- IH; split; [intros [H|H]; [congruence|exact H]|auto].
Qed.

Lemma dict_set_keys_in (V : Type) k k' (v : V) (d : dict V) :
  In k' (keys (dict_set k v d)) <-> k' = k \/ In k' (keys d).
Proof.
  induction d as [|[k0 v0] r IH]; simpl.
  - intuition congruence.
  - destruct (String.eqb_spec k0 k) as [->|Hne]; simpl.
    + intuition congruence.
    + rewrite IH; intuition congruence.
Qed.

Lemma dict_set_get (V : Type) k (v : V) (d : dict V) :
  dict_get k (dict_set k v d) = Some v.
Proof.
  induction d as [|[k0 v0] r IH]; simpl.
  - rewrite String.eqb_refl; reflexivity.
  - destruct (String.eqb k0 k) eqn:Hk; simpl; rewrite Hk; auto.
Qed.

Lemma dict_set_get_other (V : Type) k k' (v : V) (d : dict V) :
  k' <> k -> dict_get k' (dict_set k v d) = dict_get k' d.
Proof.
  intros Hne; induction d as [|[k0 v0] r IH]; simpl.
  - destruct (String.eqb_spec k k'); [congruence|reflexivity].
  - destruct (String.eqb_spec k0 k) as [->|Hk]; simpl.
    + destruct (String.eqb_spec k k'); [congruence|reflexivity].
    + rewrite IH; reflexivity.
Qed.

End DictFacts.

(** ** Traversal *)

Section TraversalFacts.
Context {L : ImageLibrary} {E : Environment L}.
Variables (refs : dict Image) (T : Z) (out : string).

Lemma scan_app l1 l2 st :
  scan (l1 ++ l2) refs T out st = scan l2 refs T out (scan l1 refs T out st).
Proof. unfold scan; apply fold_left_app. Qed.

(** The recursive traversal scores the leaves, in depth-first order, one
    after the other. *)
Lemma traverse_scan file_entry :
  forall st, traverse_file_entries file_entry refs T out st
             = scan (leaves file_entry) refs T out st.
Proof.
  induction file_entry as [f|loc subs IH] using FileEntry_ind; intros st.
  - reflexivity.
  - simpl. revert st.
    induction IH as [|sub r Hsub _ IHr]; intros st; simpl.
    + reflexivity.
    + rewrite scan_app, <- Hsub. apply IHr.
Qed.

Lemma leaves_count file_entry :
  List.length (leaves file_entry) = leaf_count file_entry.
Proof.
  induction file_entry as [f|loc subs IH] using FileEntry_ind; simpl.
  - reflexivity.
  - induction IH as [|sub r Hsub _ IHr]; simpl.
    + reflexivity.
    + rewrite length_app, Hsub, IHr. reflexivity.
Qed.

End TraversalFacts.

(** ** One candidate *)

Section CandidateFacts.
Context {L : ImageLibrary} {E : Environment L}.
Variables (file_entry : File) (image : Image) (T : Z) (out : string).

Local Abbreviation body := (compare_reference file_entry image T out).

(** The outcomes of one iteration of the loop over the references. *)
Lemma compare_reference_cases reference_name reference_image st :
  body (reference_name, reference_image) st =
  match img_similarity_check image reference_image T with
  | inl e => (st, inl e)
  | inr (false, _) => (st, inr tt)
  | inr (true, mean_diff) =>
      match dict_append reference_name
              ((location file_entry, mean_diff) : res_tuple) (result st) with
      | None => (st, inl (KeyError reference_name))
      | Some d =>
          let st1 := print_to (Line "Similar image identified! - See final report")
                       {| result := d; stdout := stdout st; saved := saved st |} in
          if String.eqb out "" then (st1, inr tt)
          else
            let p := Py.path_join out (name file_entry) in
            match Image_save image p with
            | Some e => (st1, inl e)
            | None => ({| result := d; stdout := stdout st1;
                          saved := saved st ++ [(p, image)] |}, inr tt)
            end
      end
  end.
Proof.
  unfold compare_reference, bind, call.
  destruct (img_similarity_check image reference_image T) as [e|[[|] m]];
    try reflexivity.
  unfold result_append.
  destruct (dict_append _ _ _); [|reflexivity].
  unfold print; simpl.
  destruct (String.eqb out ""); simpl; [reflexivity|].
  unfold save; simpl.
  destruct (Image_save image (Py.path_join out (name file_entry))); reflexivity.
Qed.

Lemma same_delta_refl a b : same_delta a a b b.
Proof. intros n; exists []; rewrite !app_nil_r; auto. Qed.

Lemma same_delta_trans a a' a'' b b' b'' :
  same_delta a a' b b' -> same_delta a' a'' b' b'' -> same_delta a a'' b b''.
Proof.
  intros H1 H2 n. destruct (H1 n) as (D1 & Ha & Hb), (H2 n) as (D2 & Ha' & Hb').
  exists (D1 ++ D2). rewrite Ha', Hb', Ha, Hb, !app_assoc. auto.
Qed.

Lemma compare_reference_uniform item : uniform (body item).
Proof.
  destruct item as [reference_name reference_image]; intros st1 st2 Hk.
  rewrite !compare_reference_cases.
  destruct (img_similarity_check image reference_image T) as [e|[[|] m]];
    simpl; auto using same_delta_refl.
  pose proof (dict_append_same_keys reference_name
                ((location file_entry, m) : res_tuple)
                (result st1) (result st2) Hk) as Hnone.
  destruct (dict_append _ _ (result st1)) as [d1|] eqn:H1;
  destruct (dict_append _ _ (result st2)) as [d2|] eqn:H2;
    try (exfalso; (assert (@None (dict (list res_tuple)) = None) as Hn by reflexivity);
         (apply Hnone in Hn || apply <- Hnone in Hn); discriminate).
  - assert (Hd : same_delta st1 {| result := d1; stdout := stdout st1; saved := saved st1 |}
                            st2 {| result := d2; stdout := stdout st2; saved := saved st2 |}).
    { intros n.
      exists (if String.eqb n reference_name
              then [((location file_entry, m) : res_tuple)] else []).
      split; apply dict_append_list; assumption. }
    apply dict_append_keys in H1, H2.
    destruct (String.eqb out ""); simpl; [auto|].
    destruct (Image_save image (Py.path_join out (name file_entry))); simpl; auto.
  - simpl; auto using same_delta_refl.
Qed.

Lemma for_each_uniform (l : list (string * Image)) : uniform (for_each body l).
Proof.
  induction l as [|item r IH]; intros st1 st2 Hk; simpl.
  - unfold ret; simpl; auto using same_delta_refl.
  - destruct (compare_reference_uniform item st1 st2 Hk) as (Hs & Hk1 & Hk2 & Hd).
    unfold bind.
    destruct (body item st1) as [st1' [e1|[]]], (body item st2) as [st2' [e2|[]]];
      simpl in *; try discriminate; auto.
    destruct (IH st1' st2') as (Hs' & Hk1' & Hk2' & Hd'); [congruence|].
    repeat split; try congruence.
    eapply same_delta_trans; eassumption.
Qed.

End CandidateFacts.

Section ScanFacts.
Context {L : ImageLibrary} {E : Environment L}.
Variables (refs : dict Image) (T : Z) (out : string).

Lemma uniform_const {A} (r : Exn + A) : uniform (fun st => (st, r)).
Proof. intros st1 st2 Hk; simpl; auto using same_delta_refl. Qed.

Lemma is_image_similar_try_uniform f :
  uniform (is_image_similar_try f refs T out).
Proof.
  unfold is_image_similar_try.
  destruct (negb _); [apply uniform_const|].
  destruct (file_object f) as [e| |e|content]; try apply uniform_const.
  unfold bind, call.
  destruct (Image_open_bytes content) as [e|image]; [apply uniform_const|].
  intros st1 st2 Hk.
  destruct (for_each_uniform f image T out refs st1 st2 Hk) as (Hs & Hk1 & Hk2 & Hd).
  destruct (for_each _ refs st1) as [st1' [e1|[]]],
           (for_each _ refs st2) as [st2' [e2|[]]];
    simpl in *; try discriminate; auto.
  injection Hs as ->; auto.
Qed.

Lemma comparing_error_result f e (st : State) :
  result (comparing_error f e st) = result st.
Proof. reflexivity. Qed.

(** [is_image_similar] on two states with the same keys. *)
Lemma is_image_similar_uniform f st1 st2 :
  keys (result st1) = keys (result st2) ->
  snd (is_image_similar f refs T out st1) = snd (is_image_similar f refs T out st2) /\
  keys (result (fst (is_image_similar f refs T out st1))) = keys (result st1) /\
  same_delta st1 (fst (is_image_similar f refs T out st1))
             st2 (fst (is_image_similar f refs T out st2)).
Proof.
  intros Hk. unfold is_image_similar.
  destruct (is_image_similar_try_uniform f st1 st2 Hk) as (Hs & Hk1 & _ & Hd).
  destruct (is_image_similar_try f refs T out st1) as [st1' [e1|r1]],
           (is_image_similar_try f refs T out st2) as [st2' [e2|r2]];
    simpl in *; try discriminate; auto.
  injection Hs as ->; auto.
Qed.

Lemma is_image_similar_keys f st :
  keys (result (fst (is_image_similar f refs T out st))) = keys (result st).
Proof. apply (is_image_similar_uniform f st st eq_refl). Qed.

Lemma no_match_yet_keys ks : keys (result (no_match_yet ks)) = ks.
Proof.
  unfold no_match_yet, keys; simpl. rewrite map_map; simpl. apply map_id.
Qed.

Lemma no_match_yet_list ks n : dict_list n (result (no_match_yet ks)) = [].
Proof.
  unfold no_match_yet, dict_list; simpl.
  induction ks as [|k r IH]; simpl; [reflexivity|].
  destruct (String.eqb k n); [reflexivity|exact IH].
Qed.

(** One candidate appends to each list exactly its own records. *)
Lemma is_image_similar_delta f st n :
  dict_list n (result (fst (is_image_similar f refs T out st)))
  = dict_list n (result st) ++ matches_of f refs T out (keys (result st)) n.
Proof.
  unfold matches_of.
  destruct (is_image_similar_uniform f st (no_match_yet (keys (result st))))
    as (_ & _ & Hd); [symmetry; apply no_match_yet_keys|].
  destruct (Hd n) as (D & H1 & H2).
  rewrite H2, no_match_yet_list, H1. reflexivity.
Qed.

Lemma scan_keys files : forall st,
  keys (result (scan files refs T out st)) = keys (result st).
Proof.
  induction files as [|f r IH]; intros st; simpl; [reflexivity|].
  unfold scan in *; simpl. rewrite IH. apply is_image_similar_keys.
Qed.

(** The lists after a scan: the records of the files, file after file. *)
Lemma scan_delta files : forall st n,
  dict_list n (result (scan files refs T out st))
  = dict_list n (result st)
    ++ flat_map (fun f => matches_of f refs T out (keys (result st)) n) files.
Proof.
  induction files as [|f r IH]; intros st n; simpl.
  - rewrite app_nil_r; reflexivity.
  - unfold scan in *; simpl.
    rewrite IH, is_image_similar_keys, is_image_similar_delta, app_assoc.
    reflexivity.
Qed.

End ScanFacts.

(** ** Scores and thresholds *)

Lemma float_lt_below x t : float_lt x t = true <-> below x t.
Proof.
  destruct x as [q|]; simpl; [|split; [discriminate|tauto]].
  rewrite negb_true_iff, <- not_true_iff_false, Qle_bool_iff.
  split; [apply Qnot_le_lt|apply Qlt_not_le].
Qed.

Lemma not_below_threshold_itself t : ~ below (Fin (inject_Z t)) t.
Proof. simpl; apply Qlt_irrefl. Qed.

Lemma below_monotone x t1 t2 : t1 <= t2 -> below x t1 -> below x t2.
Proof.
  destruct x as [q|]; simpl; [|tauto].
  intros Ht Hq. apply Qlt_le_trans with (inject_Z t1); [exact Hq|].
  rewrite <- Zle_Qle; exact Ht.
Qed.

Lemma float_lt_monotone x t1 t2 :
  t1 <= t2 -> float_lt x t1 = true -> float_lt x t2 = true.
Proof. rewrite !float_lt_below; apply below_monotone. Qed.

Section ScoreFacts.
Context {L : ImageLibrary}.

(** The flag returned with a score is the strict comparison of that
    score with the threshold. *)
Lemma img_similarity_check_flag img1 img2 T is_similar mean_diff :
  img_similarity_check img1 img2 T = inr (is_similar, mean_diff) ->
  is_similar = float_lt mean_diff T.
Proof.
  unfold img_similarity_check.
  destruct (ImageChops_difference img2 img1); [discriminate|].
  intros [= <- <-]; reflexivity.
Qed.
End ScoreFacts.

(** ** The claims of the specification *)

Section Aggregation.
Context {L : ImageLibrary} {E : Environment L}.

(** A pair that is not similar leaves the state as it is. *)
Lemma compare_reference_not_similar
    (file_entry : File) (image reference_image : Image)
    (reference_name : string) (T : Z) (output_folder : string) (st : State)
    (mean_diff : npfloat) :
  img_similarity_check image reference_image T = inr (false, mean_diff) ->
  compare_reference file_entry image T output_folder
    (reference_name, reference_image) st = (st, inr tt).
Proof.
  intros Hscore. rewrite compare_reference_cases, Hscore. reflexivity.
Qed.

(** A similar pair whose reference is a key of the result gets its
    record, whether or not the export succeeds. *)
Lemma compare_reference_similar
    (file_entry : File) (image reference_image : Image)
    (reference_name : string) (T : Z) (output_folder : string) (st : State)
    (mean_diff : npfloat) :
  img_similarity_check image reference_image T = inr (true, mean_diff) ->
  In reference_name (keys (result st)) ->
  exists d,
    dict_append reference_name ((location file_entry, mean_diff) : res_tuple)
      (result st) = Some d /\
    result (fst (compare_reference file_entry image T output_folder
                   (reference_name, reference_image) st)) = d.
Proof.
  intros Hscore Hin.
  destruct (@dict_append_present _ reference_name
              ((location file_entry, mean_diff) : res_tuple) (result st) Hin)
    as [d Hd].
  exists d; split; [exact Hd|].
  rewrite compare_reference_cases, Hscore, Hd; simpl.
  destruct (String.eqb output_folder ""); simpl; [reflexivity|].
  destruct (Image_save image _); reflexivity.
Qed.

(** The list of the reference after the iteration has one more record
    exactly when the score is below the threshold. *)
Lemma record_appended_iff_below
    (file_entry : File) (image reference_image : Image)
    (reference_name : string) (T : Z) (output_folder : string) (st : State)
    (is_similar : bool) (mean_diff : npfloat) (l : list res_tuple) :
  img_similarity_check image reference_image T = inr (is_similar, mean_diff) ->
  dict_get reference_name (result st) = Some l ->
  dict_get reference_name
    (result (fst (compare_reference file_entry image T output_folder
                    (reference_name, reference_image) st)))
    = Some (l ++ [(location file_entry, mean_diff)]) <-> below mean_diff T.
Proof.
  intros Hscore Hl.
  pose proof (img_similarity_check_flag _ _ _ Hscore) as ->.
  rewrite <- float_lt_below.
  destruct (float_lt mean_diff T) eqn:Hf.
  - split; [reflexivity|intros _].
    destruct (@compare_reference_similar file_entry image reference_image
                reference_name T output_folder st mean_diff Hscore)
      as (d & Hd & ->).
    { apply dict_get_in_keys; eauto. }
    destruct (dict_append_get _ _ _ Hd) as (l' & Hl' & Hget).
    rewrite Hl in Hl'. injection Hl' as <-. exact Hget.
  - split; [|discriminate].
    rewrite (@compare_reference_not_similar file_entry image reference_image
               reference_name T output_folder st mean_diff Hscore); simpl.
    rewrite Hl. intros [= Hget].
    apply (f_equal (@List.length _)) in Hget.
    rewrite length_app in Hget; simpl in Hget; lia.
Qed.

(** C1.  When a candidate is scored against a reference and the score
    [mean_diff] is computed, the record [(candidate path, mean_diff)] is
    appended to the list of that reference if and only if [mean_diff] is
    strictly below the threshold; otherwise the result is left as it
    was, in particular when the score equals the threshold.  The lists
    of the other references are not touched, and a failing export does
    not undo the append. *)
Theorem match_recorded_iff_score_below_threshold
    (file_entry : File) (image reference_image : Image)
    (reference_name : string) (T : Z) (output_folder : string) (st : State)
    (is_similar : bool) (mean_diff : npfloat) (l : list res_tuple) :
  img_similarity_check image reference_image T = inr (is_similar, mean_diff) ->
  dict_get reference_name (result st) = Some l ->
  let st' := fst (compare_reference file_entry image T output_folder
                    (reference_name, reference_image) st) in
  (dict_get reference_name (result st')
     = Some (l ++ [(location file_entry, mean_diff)]) <-> below mean_diff T) /\
  (~ below mean_diff T -> result st' = result st) /\
  (mean_diff = Fin (inject_Z T) -> result st' = result st) /\
  (forall k, k <> reference_name ->
             dict_get k (result st') = dict_get k (result st)).
Proof.
  intros Hscore Hl st'.
  split; [exact (@record_appended_iff_below file_entry _ _ _ _ output_folder st _ _ _ Hscore Hl)|].
  pose proof (img_similarity_check_flag _ _ _ Hscore) as ->.
  assert (Hno : ~ below mean_diff T -> result st' = result st).
  { intros Hnb. subst st'.
    destruct (float_lt mean_diff T) eqn:Hf;
      [exfalso; apply Hnb, float_lt_below, Hf|].
    rewrite (@compare_reference_not_similar file_entry image reference_image
               reference_name T output_folder st mean_diff Hscore).
    reflexivity. }
  split; [exact Hno|].
  split; [intros ->; apply Hno, not_below_threshold_itself|].
  intros k Hk.
  destruct (float_lt mean_diff T) eqn:Hf.
  - destruct (@compare_reference_similar file_entry image reference_image
                reference_name T output_folder st mean_diff Hscore)
      as (d & Hd & Hres).
    { apply dict_get_in_keys; eauto. }
    fold st' in Hres. rewrite Hres.
    exact (@dict_append_get_other _ _ _ _ _ _ Hd Hk).
  - rewrite Hno; [reflexivity|].
    intros Hb. apply float_lt_below in Hb. congruence.
Qed.

End Aggregation.

(** A candidate at distance 5 of the reference, threshold 10. *)
Lemma match_recorded_iff_score_below_threshold_witness :
  let st := {| result := [("refs/ref1.jpg", [])]; stdout := []; saved := [] |} in
  let image := {| Pillow.bands := 1; Pillow.width := 2; Pillow.height := 1;
                  Pillow.rows := [[10; 20]] |} in
  let reference := {| Pillow.bands := 1; Pillow.width := 2; Pillow.height := 1;
                      Pillow.rows := [[15; 25]] |} in
  let st' := fst (compare_reference (E := Demo.quiet) Demo.a_jpg image 10 ""
                    ("refs/ref1.jpg", reference) st) in
  (dict_get "refs/ref1.jpg" (result st')
     = Some ([] ++ [("/pics/a.jpg", Fin 5)]) <-> below (Fin 5) 10) /\
  (~ below (Fin 5) 10 -> result st' = result st) /\
  (Fin 5 = Fin (inject_Z 10) -> result st' = result st) /\
  (forall k, k <> "refs/ref1.jpg" ->
             dict_get k (result st') = dict_get k (result st)).
Proof.
  intros st image reference.
  apply (@match_recorded_iff_score_below_threshold Pillow.library Demo.quiet
           Demo.a_jpg image reference "refs/ref1.jpg" 10 "" st true (Fin 5) []);
    reflexivity.
Defined.

Section StackFacts.
Context {L : ImageLibrary} {E : Environment L} {C : CallStack L}.
Variables (refs : dict Image) (T : Z) (out : string).

(** With room for the depth of the tree and for the calls made at its
    entries, no call meets the recursion limit. *)
Lemma traverse_on_stack_enough root : forall frames st,
  (depth root + provider_frames <= frames)%nat ->
  (depth root + scoring_frames <= frames)%nat ->
  traverse_file_entries_on_stack frames root refs T out st
  = (traverse_file_entries root refs T out st, None).
Proof.
  induction root as [f|loc subs IH] using FileEntry_ind; intros frames st Hp Hs.
  - destruct frames as [|k]; [simpl in Hp; lia|].
    cbn [traverse_file_entries_on_stack traverse_file_entries].
    cbn [depth] in Hp, Hs.
    rewrite (proj2 (Nat.leb_le provider_frames k)) by lia.
    rewrite (proj2 (Nat.leb_le scoring_frames k)) by lia.
    reflexivity.
  - destruct frames as [|k]; [simpl in Hp; lia|].
    cbn [traverse_file_entries_on_stack traverse_file_entries].
    cbn [depth] in Hp, Hs.
    rewrite (proj2 (Nat.leb_le provider_frames k)) by lia.
    cbn [negb].
    assert (Hmp : (list_max (map depth subs) + provider_frames <= k)%nat) by lia.
    assert (Hms : (list_max (map depth subs) + scoring_frames <= k)%nat) by lia.
    clear Hp Hs. revert st Hmp Hms.
    induction IH as [|sub r Hsub _ IHr]; intros st Hmp Hms; [reflexivity|].
    simpl in Hmp, Hms.
    rewrite Hsub by lia. apply IHr; lia.
Qed.

(** Directories nested deeper than the frames left: the recursion limit
    is met before anything is scored. *)
Lemma nested_directories_overflow n : forall frames loc st,
  (frames <= n)%nat ->
  traverse_file_entries_on_stack frames (DeepDemo.nested_directories n loc)
    refs T out st
  = (st, Some RecursionError).
Proof.
  induction n as [|m IH]; intros frames loc st Hn.
  - destruct frames as [|k]; [reflexivity|lia].
  - destruct frames as [|k]; [reflexivity|].
    cbn [DeepDemo.nested_directories traverse_file_entries_on_stack].
    destruct (Nat.leb provider_frames k); [|reflexivity].
    cbn [negb]. rewrite IH by lia. reflexivity.
Qed.

End StackFacts.

Section Traversal.
Context {L : ImageLibrary} {E : Environment L} {C : CallStack L}.

(** C2 (as the code behaves).  The traversal is recursive, one call for
    each level of directories.  When the call stack has room for the
    depth of the tree and for the calls made at its entries, the
    traversal is the scan of the leaf entries in depth-first order,
    children in the order the provider lists them: [is_image_similar]
    runs once per leaf, as many times as the tree has leaves, no
    exception leaves the traversal, and the list of every reference grows
    by the records of the leaves in that same order.  When the tree is
    deeper than the frames left, an exception leaves
    [traverse_file_entries]: the traversal does not reach its end. *)
Theorem traversal_scores_leaves_in_discovery_order
    (reference_image_list : dict Image) (T : Z) (output_folder : string) :
  (forall frames root st,
      (depth root + provider_frames <= frames)%nat ->
      (depth root + scoring_frames <= frames)%nat ->
      traverse_file_entries_on_stack frames root reference_image_list T
        output_folder st
      = (scan (leaves root) reference_image_list T output_folder st, None) /\
      List.length (leaves root) = leaf_count root /\
      forall reference_name,
        dict_list reference_name
          (result (fst (traverse_file_entries_on_stack frames root
                          reference_image_list T output_folder st)))
        = dict_list reference_name (result st)
          ++ flat_map
               (fun f => matches_of f reference_image_list T output_folder
                           (keys (result st)) reference_name)
               (leaves root)) /\
  (forall frames root st,
      (frames < depth root)%nat ->
      exists st' e,
        traverse_file_entries_on_stack frames root reference_image_list T
          output_folder st = (st', Some e)).
Proof.
  split.
  - intros frames root st Hp Hs.
    assert (Hrun : traverse_file_entries_on_stack frames root reference_image_list
                     T output_folder st
                   = (scan (leaves root) reference_image_list T output_folder st,
                      None)).
    { rewrite (traverse_on_stack_enough _ _ _ _ _ Hp Hs).
      rewrite traverse_scan. reflexivity. }
    split; [exact Hrun|]. split; [apply leaves_count|].
    intros n. rewrite Hrun. apply scan_delta.
  - intros frames root. revert frames.
    induction root as [f|loc subs IH] using FileEntry_ind; intros frames st Hd.
    + destruct frames as [|k]; [|simpl in Hd; lia].
      exists st, RecursionError. reflexivity.
    + destruct frames as [|k]; [exists st, RecursionError; reflexivity|].
      cbn [traverse_file_entries_on_stack].
      destruct (Nat.leb provider_frames k);
        [|exists st, RecursionError; reflexivity].
      cbn [negb]. cbn [depth] in Hd.
      assert (Hmax : (k < list_max (map depth subs))%nat) by lia.
      clear Hd. revert st Hmax.
      induction IH as [|sub r Hsub _ IHr]; intros st Hmax;
        [simpl in Hmax; lia|].
      destruct (traverse_file_entries_on_stack k sub reference_image_list T
                  output_folder st) as [st1 [e|]] eqn:Hrun.
      * exists st1, e. reflexivity.
      * destruct (Nat.lt_ge_cases k (depth sub)) as [Hdeep|Hfits].
        -- destruct (Hsub k st Hdeep) as (st' & e & He). congruence.
        -- apply IHr. simpl in Hmax. lia.
Qed.

(** The state after the [except] block: three more lines on the
    standard output, nothing else. *)
Lemma comparing_error_effect f e (st : State) :
  result (comparing_error f e st) = result st /\
  saved (comparing_error f e st) = saved st /\
  stdout (comparing_error f e st)
    = stdout st ++ [Line ("Error while comparing image: " ++ location f);
                    Line ("Error Details: " ++ e);
                    Traceback e].
Proof.
  repeat split. unfold comparing_error, print_to; simpl.
  rewrite <- !app_assoc. reflexivity.
Qed.

(** The traversal around one leaf. *)
Lemma traverse_around_leaf root refs T out before f after st :
  leaves root = before ++ f :: after ->
  traverse_file_entries root refs T out st
  = scan after refs T out
      (fst (is_image_similar f refs T out (scan before refs T out st))).
Proof.
  intros Hl. rewrite traverse_scan, Hl, scan_app. reflexivity.
Qed.

(** C6.  A candidate with an image extension whose bytes fail to decode
    is skipped: [is_image_similar] returns after printing the error,
    without touching the result or the exported files, and the traversal
    goes on with the entries after it. *)
Theorem undecodable_candidate_is_skipped
    (f : File) (file_content : bytes) (e : Exn)
    (reference_image_list : dict Image) (T : Z) (output_folder : string) :
  Py.in_list (Py.lower (snd (Py.splitext (location f)))) valid_image_extensions
    = true ->
  file_object f = read_returns file_content ->
  Image_open_bytes file_content = inl e ->
  (forall st,
      is_image_similar f reference_image_list T output_folder st
        = (comparing_error f e st, Some false) /\
      result (comparing_error f e st) = result st /\
      saved (comparing_error f e st) = saved st /\
      stdout (comparing_error f e st)
        = stdout st ++ [Line ("Error while comparing image: " ++ location f);
                        Line ("Error Details: " ++ e);
                        Traceback e]) /\
  (forall root before after st,
      leaves root = before ++ f :: after ->
      traverse_file_entries root reference_image_list T output_folder st
      = scan after reference_image_list T output_folder
          (comparing_error f e
             (scan before reference_image_list T output_folder st))).
Proof.
  intros Hext Hobj Hopen.
  assert (Hrun : forall st,
             is_image_similar f reference_image_list T output_folder st
             = (comparing_error f e st, Some false)).
  { intros st. unfold is_image_similar, is_image_similar_try.
    rewrite Hext, Hobj; simpl. unfold bind, call. rewrite Hopen. reflexivity. }
  split.
  - intros st. split; [apply Hrun|apply comparing_error_effect].
  - intros root before after st Hl.
    rewrite (traverse_around_leaf _ _ _ _ _ _ _ _ Hl), Hrun. reflexivity.
Qed.

End Traversal.

(** The demo disk, three levels deep, with 1000 frames; and the disk with
    a thousand nested directories, deeper than 1000 frames. *)
Lemma traversal_scores_leaves_in_discovery_order_witness :
  let refs : dict (@Image Pillow.library) :=
    [("refs/REF2.PNG",
      {| Pillow.bands := 1; Pillow.width := 2; Pillow.height := 1;
         Pillow.rows := [[10; 20]] |})] in
  let st : @State Pillow.library :=
    {| result := [("refs/REF2.PNG", [])]; stdout := []; saved := [] |} in
  (depth Demo.disk_root + provider_frames (CallStack := DeepDemo.stack) <= 1000)%nat /\
  (depth Demo.disk_root + scoring_frames (CallStack := DeepDemo.stack) <= 1000)%nat /\
  traverse_file_entries_on_stack (E := Demo.quiet) (C := DeepDemo.stack)
    1000 Demo.disk_root refs 10 "" st
  = (scan (E := Demo.quiet) (leaves Demo.disk_root) refs 10 "" st, None) /\
  (1000 < depth DeepDemo.disk_root)%nat /\
  exists st' e,
    traverse_file_entries_on_stack (E := Demo.quiet) (C := DeepDemo.stack)
      1000 DeepDemo.disk_root refs 10 "" st = (st', Some e).
Proof.
  intros refs st.
  destruct (@traversal_scores_leaves_in_discovery_order Pillow.library Demo.quiet
              DeepDemo.stack refs 10 "") as [Hfits Hdeep].
  assert (Hp : (depth Demo.disk_root + provider_frames (CallStack := DeepDemo.stack)
                <= 1000)%nat) by (simpl; lia).
  assert (Hs : (depth Demo.disk_root + scoring_frames (CallStack := DeepDemo.stack)
                <= 1000)%nat) by (simpl; lia).
  assert (Hd : (1000 < depth DeepDemo.disk_root)%nat)
    by (vm_compute; apply le_n).
  split; [exact Hp|]. split; [exact Hs|].
  split; [exact (proj1 (Hfits 1000%nat Demo.disk_root st Hp Hs))|].
  split; [exact Hd|].
  exact (Hdeep 1000%nat DeepDemo.disk_root st Hd).
Defined.

(** C2 as stated fails on a deep tree.  The disk image holds a chain of a
    thousand nested directories, listed before the directory of [a.jpg],
    its only leaf, which is a copy of the reference.  Whatever the calls
    need of the call stack, with the 1000 frames of the default
    recursion limit (or fewer) the traversal ends with [RecursionError]
    in the state in which it started: the leaf is never scored, while
    scoring it appends a record. *)
Lemma deep_directories_end_the_traversal :
  let refs : dict (@Image Pillow.library) :=
    [("refs/REF2.PNG",
      {| Pillow.bands := 1; Pillow.width := 2; Pillow.height := 1;
         Pillow.rows := [[10; 20]] |})] in
  let st : @State Pillow.library :=
    {| result := [("refs/REF2.PNG", [])]; stdout := []; saved := [] |} in
  leaves DeepDemo.disk_root = [Demo.a_jpg] /\
  result (fst (is_image_similar (E := Demo.quiet) Demo.a_jpg refs 10 "" st))
    = [("refs/REF2.PNG", [("/pics/a.jpg", Fin 0)])] /\
  forall (C : CallStack Pillow.library) (frames : nat),
    (frames <= 1000)%nat ->
    traverse_file_entries_on_stack (E := Demo.quiet) frames DeepDemo.disk_root
      refs 10 "" st
    = (st, Some RecursionError).
Proof.
  intros refs st.
  split; [vm_compute; reflexivity|]. split; [reflexivity|].
  intros C frames Hframes.
  destruct frames as [|k]; [reflexivity|].
  unfold DeepDemo.disk_root. cbn [traverse_file_entries_on_stack].
  destruct (Nat.leb provider_frames k); [|reflexivity].
  cbn [negb].
  rewrite (@nested_directories_overflow Pillow.library Demo.quiet C refs 10 ""
             999 k "/d" st) by lia.
  reflexivity.
Qed.

(** The corrupt [broken.jpg] of the demo disk, between nothing and
    [a.jpg], [readme.txt]. *)
Lemma undecodable_candidate_is_skipped_witness :
  let refs : dict (@Image Pillow.library) :=
              [("refs/ref1.jpg",
                {| Pillow.bands := 1; Pillow.width := 2; Pillow.height := 1;
                   Pillow.rows := [[15; 25]] |})] in
  (forall st : @State Pillow.library,
      is_image_similar (E := Demo.quiet) Demo.broken_jpg refs 10 "" st
        = (comparing_error Demo.broken_jpg "cannot identify image file" st, Some false) /\
      result (comparing_error Demo.broken_jpg "cannot identify image file" st)
        = result st /\
      saved (comparing_error Demo.broken_jpg "cannot identify image file" st)
        = saved st /\
      stdout (comparing_error Demo.broken_jpg "cannot identify image file" st)
        = stdout st ++ [Line "Error while comparing image: /pics/broken.jpg";
                        Line "Error Details: cannot identify image file";
                        Traceback "cannot identify image file"]) /\
  (forall root before after st,
      leaves root = before ++ Demo.broken_jpg :: after ->
      traverse_file_entries (L := Pillow.library) (E := Demo.quiet) root refs 10 "" st
      = scan (E := Demo.quiet) after refs 10 ""
          (comparing_error Demo.broken_jpg "cannot identify image file"
             (scan (E := Demo.quiet) before refs 10 "" st))).
Proof.
  intros refs.
  apply (@undecodable_candidate_is_skipped Pillow.library Demo.quiet
           Demo.broken_jpg [] "cannot identify image file" refs 10 "");
    reflexivity.
Defined.

(** ** Scores in the 8-bit model *)

Section PillowFacts.
Import Pillow.

Lemma zip_with_diag {A C} (f : A -> A -> C) (l : list A) :
  zip_with f l l = map (fun x => f x x) l.
Proof. induction l as [|x r IH]; simpl; [reflexivity|rewrite IH; reflexivity]. Qed.

Lemma chop_diag x : chop x x = 0.
Proof. unfold chop. rewrite Z.sub_diag. reflexivity. Qed.

(** On bytes the difference is the absolute difference: nothing is
    clipped. *)
Lemma chop_abs x y :
  0 <= x < 256 -> 0 <= y < 256 -> chop x y = Z.abs (x - y).
Proof. unfold chop; lia. Qed.

Lemma np_sum_zeros {A} (l : list A) : np_sum (map (fun _ => 0) l) = 0.
Proof. induction l as [|x r IH]; simpl; [reflexivity|exact IH]. Qed.

Lemma np_mean_zeros {A} (l : list A) :
  l <> [] -> np_mean (map (fun _ => 0) l) = Fin 0.
Proof.
  destruct l as [|x r]; [congruence|]; intros _.
  unfold np_mean. change (map (fun _ => 0) (x :: r)) with (0 :: map (fun _ => 0) r).
  cbv beta iota. change (np_sum (0 :: map (fun _ => 0) r))
    with (0 + np_sum (map (fun _ => 0) r)).
  rewrite np_sum_zeros. reflexivity.
Qed.

Lemma difference_diag_samples (img : Bitmap) :
  List.concat (zip_with (zip_with chop) (rows img) (rows img))
  = map (fun _ => 0) (List.concat (rows img)).
Proof.
  rewrite zip_with_diag.
  induction (rows img) as [|row r IH]; simpl; [reflexivity|].
  rewrite map_app, IH, zip_with_diag. f_equal.
  apply map_ext; intros x; apply chop_diag.
Qed.

Lemma float_lt_zero T : float_lt (Fin 0) T = (0 <? T).
Proof.
  unfold float_lt, Qle_bool; simpl. rewrite Z.mul_1_r.
  destruct (Z.leb_spec T 0), (Z.ltb_spec 0 T); simpl; auto; lia.
Qed.

(** A well-formed image has at least one sample. *)
Lemma wf_has_samples (img : Bitmap) : wf img -> np_array img <> [].
Proof.
  intros (Hb & Hw & Hh & Hlen & Hrows); simpl.
  destruct (rows img) as [|row r]; [simpl in Hlen; lia|].
  inversion Hrows as [|? ? [Hrow _] _]; subst.
  destruct row as [|x row]; [simpl in Hrow; nia|].
  simpl; discriminate.
Qed.

(** C4.  An image with at least one sample, scored against itself, gets
    the score 0 exactly: the difference image is zero at every pixel and
    channel, and its mean is 0; the pair is "similar" exactly when the
    threshold is positive. *)
Theorem identical_images_score_zero (img : Bitmap) (T : Z) :
  np_array img <> [] ->
  img_similarity_check (L := library) img img T = inr (0 <? T, Fin 0).
Proof.
  intros Hne. unfold img_similarity_check; simpl.
  unfold difference. rewrite Nat.eqb_refl; simpl.
  change (List.concat (rows img) <> []) in Hne.
  rewrite difference_diag_samples, (np_mean_zeros Hne), float_lt_zero.
  reflexivity.
Qed.

End PillowFacts.

(** A gray image of two pixels. *)
Lemma identical_images_score_zero_witness :
  let img := {| Pillow.bands := 1; Pillow.width := 2; Pillow.height := 1;
                Pillow.rows := [[10; 20]] |} in
  img_similarity_check (L := Pillow.library) img img 10 = inr (true, Fin 0).
Proof.
  intros img.
  apply (@identical_images_score_zero img 10). simpl; discriminate.
Defined.

(** ** The exception handler of a candidate *)

Section Handler.
Context {L : ImageLibrary} {E : Environment L}.

Lemma for_each_app {A} (body : A -> Exec unit) l1 l2 st :
  for_each body (l1 ++ l2) st =
  match for_each body l1 st with
  | (st1, inr _) => for_each body l2 st1
  | (st1, inl e) => (st1, inl e)
  end.
Proof.
  revert st; induction l1 as [|x r IH]; intros st; simpl; [reflexivity|].
  unfold bind. destruct (body x st) as [st' [e|[]]]; [reflexivity|apply IH].
Qed.

Lemma uniform_extends {A} (m : Exec A) st : uniform m -> extends st (fst (m st)).
Proof.
  intros Hu n. destruct (Hu st st eq_refl) as (_ & _ & _ & Hd).
  destruct (Hd n) as (D & HD & _); eauto.
Qed.

(** Why an iteration of the loop raises: the scoring raised, the key is
    missing from the result, or the export raised after the record was
    appended. *)
Lemma compare_reference_raises f image T out reference_name reference_image st1 st2 e :
  compare_reference f image T out (reference_name, reference_image) st1
    = (st2, inl e) ->
  (img_similarity_check image reference_image T = inl e /\ st2 = st1) \/
  (exists mean_diff,
      img_similarity_check image reference_image T = inr (true, mean_diff) /\
      ((dict_append reference_name ((location f, mean_diff) : res_tuple) (result st1) = None
        /\ st2 = st1 /\ e = KeyError reference_name) \/
       (dict_append reference_name ((location f, mean_diff) : res_tuple) (result st1)
          = Some (result st2)
        /\ output_folder_set out = true
        /\ Image_save image (Py.path_join out (name f)) = Some e))).
Proof.
  rewrite compare_reference_cases.
  destruct (img_similarity_check image reference_image T) as [e'|[[|] m]].
  - intros [= <- <-]; auto.
  - intros H. right; exists m; split; [reflexivity|].
    destruct (dict_append _ _ _) as [d|]; [|injection H as <- <-; auto].
    right; revert H. unfold output_folder_set.
    destruct (String.eqb out ""); simpl; [discriminate|].
    destruct (Image_save image _) as [e'|]; [|discriminate].
    intros [= <- <-]; auto.
  - discriminate.
Qed.

(** C10.  One handler wraps the loop over the references: when the
    iteration for a reference raises (scoring, or export after the
    append), [is_image_similar] prints the error and returns, whatever
    references come after it in the iteration order, so the candidate is
    compared with none of them; the lists keep what the earlier
    iterations appended; and the traversal goes on with the next
    entries. *)
Theorem exception_ends_the_candidate
    (f : File) (file_content : bytes) (image : Image)
    (before : dict Image) (reference_name : string) (reference_image : Image)
    (T : Z) (output_folder : string) (st st1 st2 : State) (e : Exn) :
  Py.in_list (Py.lower (snd (Py.splitext (location f)))) valid_image_extensions
    = true ->
  file_object f = read_returns file_content ->
  Image_open_bytes file_content = inr image ->
  for_each (compare_reference f image T output_folder) before st = (st1, inr tt) ->
  compare_reference f image T output_folder (reference_name, reference_image) st1
    = (st2, inl e) ->
  (forall after,
      is_image_similar f (before ++ (reference_name, reference_image) :: after)
        T output_folder st
      = (comparing_error f e st2, Some false)) /\
  extends st st1 /\
  extends st1 (comparing_error f e st2) /\
  (forall after root files_before files_after st0,
      leaves root = files_before ++ f :: files_after ->
      scan files_before (before ++ (reference_name, reference_image) :: after)
        T output_folder st0 = st ->
      traverse_file_entries root
        (before ++ (reference_name, reference_image) :: after) T output_folder st0
      = scan files_after (before ++ (reference_name, reference_image) :: after)
          T output_folder (comparing_error f e st2)).
Proof.
  intros Hext Hobj Hopen Hbefore Hraise.
  assert (Hrun : forall after,
             is_image_similar f (before ++ (reference_name, reference_image) :: after)
               T output_folder st
             = (comparing_error f e st2, Some false)).
  { intros after. unfold is_image_similar, is_image_similar_try.
    rewrite Hext, Hobj; simpl. unfold bind at 1, call. rewrite Hopen.
    unfold bind at 1. rewrite for_each_app, Hbefore.
    cbn [for_each]. unfold bind at 1. rewrite Hraise. reflexivity. }
  split; [exact Hrun|].
  split.
  { replace st1 with (fst (for_each (compare_reference f image T output_folder) before st))
      by (rewrite Hbefore; reflexivity).
    apply uniform_extends, for_each_uniform. }
  split.
  { replace st2 with (fst (compare_reference f image T output_folder
                             (reference_name, reference_image) st1))
      by (rewrite Hraise; reflexivity).
    intros n.
    destruct (@uniform_extends _ (compare_reference f image T output_folder
                                    (reference_name, reference_image)) st1
                (compare_reference_uniform f image T output_folder _) n) as [D HD].
    exists D. exact HD. }
  intros after root files_before files_after st0 Hl Hst.
  rewrite (traverse_around_leaf _ _ _ _ _ _ _ _ Hl), Hst, Hrun. reflexivity.
Qed.

End Handler.

(** The export of [a.jpg] fails after the match against the first
    reference: the second reference, identical to the candidate, is never
    compared. *)
Lemma exception_ends_the_candidate_witness :
  let image := {| Pillow.bands := 1; Pillow.width := 2; Pillow.height := 1;
                  Pillow.rows := [[10; 20]] |} in
  let ref1 := {| Pillow.bands := 1; Pillow.width := 2; Pillow.height := 1;
                 Pillow.rows := [[15; 25]] |} in
  let st : @State Pillow.library :=
    {| result := [("refs/ref1.jpg", []); ("refs/REF2.PNG", [])];
       stdout := []; saved := [] |} in
  let st2 : @State Pillow.library :=
    {| result := [("refs/ref1.jpg", [("/pics/a.jpg", Fin 5)]); ("refs/REF2.PNG", [])];
       stdout := [Line "Similar image identified! - See final report"];
       saved := [] |} in
  compare_reference (E := Demo.readonly) Demo.a_jpg image 10 "out"
    ("refs/ref1.jpg", ref1) st = (st2, inl "Permission denied") /\
  forall after,
    is_image_similar (E := Demo.readonly) Demo.a_jpg
      ([] ++ ("refs/ref1.jpg", ref1) :: after) 10 "out" st
    = (comparing_error Demo.a_jpg "Permission denied" st2, Some false).
Proof.
  intros image ref1 st st2.
  split; [reflexivity|].
  exact (proj1 (@exception_ends_the_candidate Pillow.library Demo.readonly
                  Demo.a_jpg (Demo.gray [Byte.x0a; Byte.x14]) image []
                  "refs/ref1.jpg" ref1 10 "out" st st st2 "Permission denied"
                  eq_refl eq_refl eq_refl eq_refl eq_refl)).
Defined.

(** ** Images of differing dimensions *)

Section DimensionFacts.
Import Pillow.

Lemma zip_with_firstn {A B C} (f : A -> B -> C) (a : list A) (b : list B) n :
  (Nat.min (List.length a) (List.length b) <= n)%nat ->
  zip_with f (firstn n a) (firstn n b) = zip_with f a b.
Proof.
  revert b n; induction a as [|x a IH]; intros b n Hn.
  - rewrite firstn_nil; reflexivity.
  - destruct b as [|y b].
    + rewrite firstn_nil. destruct (firstn n (x :: a)); reflexivity.
    + destruct n as [|n]; [simpl in Hn; lia|].
      simpl. rewrite IH; [reflexivity|simpl in Hn; lia].
Qed.

Lemma zip_with_map {A A' B B' C} (f : A' -> B' -> C) (p : A -> A') (q : B -> B')
    (a : list A) (b : list B) :
  zip_with f (map p a) (map q b) = zip_with (fun x y => f (p x) (q y)) a b.
Proof.
  revert b; induction a as [|x a IH]; intros [|y b]; simpl; try reflexivity.
  rewrite IH; reflexivity.
Qed.

Lemma zip_with_ext_Forall {A B C} (f g : A -> B -> C) (P : A -> Prop) (Q : B -> Prop)
    (a : list A) (b : list B) :
  (forall x y, P x -> Q y -> f x y = g x y) ->
  Forall P a -> Forall Q b -> zip_with f a b = zip_with g a b.
Proof.
  intros Hfg Ha; revert b; induction Ha as [|x a Hx Ha IH]; intros b Hb.
  - reflexivity.
  - destruct Hb as [|y b Hy Hb]; simpl; [reflexivity|].
    rewrite (Hfg x y Hx Hy), (IH b Hb); reflexivity.
Qed.

Lemma Forall_firstn {A} (P : A -> Prop) n (l : list A) :
  Forall P l -> Forall P (firstn n l).
Proof.
  intros H; revert n; induction H as [|x l Hx Hl IH]; intros [|n]; simpl; auto.
Qed.

Lemma Forall_weaken {A} (P Q : A -> Prop) (l : list A) :
  (forall x, P x -> Q x) -> Forall P l -> Forall Q l.
Proof. intros HPQ H; induction H; auto. Qed.

(** The difference of two well-formed images with the same bands is the
    difference of their top-left regions of the common size. *)
Lemma difference_rows_crop (a b : Bitmap) :
  wf a -> wf b -> bands a = bands b ->
  let w := Nat.min (width a) (width b) in
  let h := Nat.min (height a) (height b) in
  zip_with (zip_with chop) (rows (crop w h a)) (rows (crop w h b))
  = zip_with (zip_with chop) (rows a) (rows b).
Proof.
  intros (_ & _ & _ & Hla & Hra) (_ & _ & _ & Hlb & Hrb) Hbands w h.
  unfold crop; simpl. rewrite zip_with_map.
  rewrite (@zip_with_ext_Forall _ _ _ _ (zip_with chop)
             (fun row => List.length row = (width a * bands a)%nat)
             (fun row => List.length row = (width b * bands b)%nat)).
  - apply zip_with_firstn. subst h. rewrite Hla, Hlb. lia.
  - intros x y Hx Hy. rewrite <- Hbands in *. apply zip_with_firstn.
    rewrite Hx, Hy. subst w.
    rewrite Nat.mul_min_distr_r. lia.
  - apply Forall_firstn. revert Hra. apply Forall_weaken. tauto.
  - apply Forall_firstn. revert Hrb. apply Forall_weaken. tauto.
Qed.

End DimensionFacts.

Section DimensionMismatch.
Import Pillow.
Context {E : Environment library}.

(** C9 (as the code behaves).  The program makes no check of dimensions.
    For 8-bit images and a threshold that converts to a float: a
    candidate and a reference of differing dimensions with the same
    number of bands are scored on the region both cover (the smaller width
    by the smaller height, from the top-left corner); the comparison does
    not raise, and the record is appended if and only if that score is
    below the threshold.  When the numbers of bands differ the library
    raises: the iteration ends with that exception and the state
    unchanged, so no record is appended for the pair; the handler of
    [is_image_similar] catches the exception, prints the error and
    returns, the references that follow are not compared, the result and
    the exported files are those left by the references before; and the
    traversal goes on with the next entries. *)
Theorem differing_dimensions_scored_on_common_region
    (f : File) (candidate reference : Bitmap) (reference_name : string)
    (T : Z) (output_folder : string) (st : State) (l : list res_tuple) :
  wf candidate -> wf reference ->
  converts_to_float T ->
  dict_get reference_name (result st) = Some l ->
  let w := Nat.min (width candidate) (width reference) in
  let h := Nat.min (height candidate) (height reference) in
  (bands candidate = bands reference ->
   exists mean_diff,
     img_similarity_check candidate reference T
       = inr (float_lt mean_diff T, mean_diff) /\
     img_similarity_check (crop w h candidate) (crop w h reference) T
       = inr (float_lt mean_diff T, mean_diff) /\
     (dict_get reference_name
        (result (fst (compare_reference f candidate T output_folder
                        (reference_name, reference) st)))
        = Some (l ++ [(location f, mean_diff)]) <-> below mean_diff T)) /\
  (bands candidate <> bands reference ->
   compare_reference f candidate T output_folder (reference_name, reference) st
     = (st, inl "images do not match") /\
   forall file_content before after st0,
     is_candidate f = true ->
     file_object f = read_returns file_content ->
     Image_open_bytes file_content = inr candidate ->
     for_each (compare_reference f candidate T output_folder) before st0
       = (st, inr tt) ->
     let refs := before ++ (reference_name, reference) :: after in
     is_image_similar f refs T output_folder st0
       = (comparing_error f "images do not match" st, Some false) /\
     result (comparing_error f "images do not match" st) = result st /\
     saved (comparing_error f "images do not match" st) = saved st /\
     stdout (comparing_error f "images do not match" st)
       = stdout st ++ [Line ("Error while comparing image: " ++ location f);
                       Line "Error Details: images do not match";
                       Traceback "images do not match"] /\
     forall root files_before files_after s,
       leaves root = files_before ++ f :: files_after ->
       scan files_before refs T output_folder s = st0 ->
       traverse_file_entries root refs T output_folder s
       = scan files_after refs T output_folder
           (comparing_error f "images do not match" st)).
Proof.
  intros Hc Hr _ Hl w h. split.
  - intros Hb.
    exists (np_mean (List.concat (zip_with (zip_with chop) (rows reference)
                                    (rows candidate)))).
    assert (Hscore : forall T',
               img_similarity_check (L := library) candidate reference T'
               = inr (float_lt (np_mean (List.concat
                                  (zip_with (zip_with chop) (rows reference)
                                     (rows candidate)))) T',
                      np_mean (List.concat
                                 (zip_with (zip_with chop) (rows reference)
                                    (rows candidate))))).
    { intros T'. unfold img_similarity_check; simpl. unfold difference.
      rewrite <- Hb, Nat.eqb_refl. reflexivity. }
    split; [apply Hscore|]. split.
    + unfold img_similarity_check; simpl. unfold difference; simpl.
      rewrite <- Hb, Nat.eqb_refl; simpl.
      pose proof (@difference_rows_crop reference candidate Hr Hc (eq_sym Hb)) as Hcrop.
      simpl in Hcrop. rewrite <- Hb in Hcrop. subst w h.
      rewrite (Nat.min_comm (width candidate)), (Nat.min_comm (height candidate)).
      rewrite Hcrop. reflexivity.
    + apply (@record_appended_iff_below library E f candidate reference
               reference_name T output_folder st _ _ l (Hscore T) Hl).
  - intros Hb.
    assert (Hraise : compare_reference f candidate T output_folder
                       (reference_name, reference) st
                     = (st, inl "images do not match")).
    { etransitivity;
        [exact (@compare_reference_cases library E f candidate T output_folder
                  reference_name reference st)|].
      unfold img_similarity_check; simpl. unfold difference.
      destruct (Nat.eqb_spec (bands reference) (bands candidate)) as [Heq|_];
        [congruence|reflexivity]. }
    split; [exact Hraise|].
    intros file_content before after st0 Hcand Hobj Hopen Hbefore refs.
    assert (Hrun : is_image_similar f refs T output_folder st0
                   = (comparing_error f "images do not match" st, Some false)).
    { unfold is_image_similar, is_image_similar_try.
      unfold is_candidate in Hcand. rewrite Hcand, Hobj.
      change (negb true) with false. cbv beta iota.
      unfold bind at 1, call. rewrite Hopen.
      unfold bind at 1. subst refs. rewrite for_each_app, Hbefore.
      cbn [for_each]. unfold bind at 1. rewrite Hraise. reflexivity. }
    split; [exact Hrun|].
    destruct (comparing_error_effect f "images do not match" st)
      as (Hres & Hsaved & Hout).
    split; [exact Hres|]. split; [exact Hsaved|]. split; [exact Hout|].
    intros root files_before files_after s Hleaves Hs.
    rewrite (traverse_around_leaf _ _ _ _ _ _ _ _ Hleaves), Hs, Hrun.
    reflexivity.
Qed.

End DimensionMismatch.

(** C9 as stated fails: a candidate of two pixels and a reference of one
    pixel differ in width, and the candidate is recorded as a match of the
    reference with score 0. *)
Lemma differing_dimensions_are_recorded :
  let reference := {| Pillow.bands := 1; Pillow.width := 1; Pillow.height := 1;
                      Pillow.rows := [[10]] |} in
  let candidate := {| Pillow.bands := 1; Pillow.width := 2; Pillow.height := 1;
                      Pillow.rows := [[10; 20]] |} in
  let st : @State Pillow.library :=
    {| result := [("refs/small.png", [])]; stdout := []; saved := [] |} in
  Image_open_bytes (Environment := Demo.quiet) (Demo.gray [Byte.x0a; Byte.x14])
    = inr candidate /\
  Pillow.width candidate <> Pillow.width reference /\
  result (fst (is_image_similar (E := Demo.quiet) Demo.a_jpg
                 [("refs/small.png", reference)] 10 "" st))
  = [("refs/small.png", [("/pics/a.jpg", Fin 0)])].
Proof.
  intros reference candidate st.
  split; [reflexivity|]. split; [simpl; discriminate|reflexivity].
Qed.

(** Two pixels against one pixel, threshold 10; and a candidate of two
    bands against the same reference of one band. *)
Lemma differing_dimensions_scored_on_common_region_witness :
  let reference := {| Pillow.bands := 1; Pillow.width := 1; Pillow.height := 1;
                      Pillow.rows := [[10]] |} in
  let candidate := {| Pillow.bands := 1; Pillow.width := 2; Pillow.height := 1;
                      Pillow.rows := [[10; 20]] |} in
  let two_bands := {| Pillow.bands := 2; Pillow.width := 1; Pillow.height := 1;
                      Pillow.rows := [[10; 20]] |} in
  let two_png := {| location := "/pics/two.png"; name := "two.png";
                    file_object := read_returns [Byte.x02; Byte.x0a; Byte.x14] |} in
  let st : @State Pillow.library :=
    {| result := [("refs/small.png", [])]; stdout := []; saved := [] |} in
  Pillow.wf candidate /\ Pillow.wf two_bands /\ Pillow.wf reference /\
  converts_to_float 10 /\
  (exists mean_diff,
    img_similarity_check (L := Pillow.library) candidate reference 10
      = inr (float_lt mean_diff 10, mean_diff) /\
    img_similarity_check (L := Pillow.library)
      (Pillow.crop 1 1 candidate) (Pillow.crop 1 1 reference) 10
      = inr (float_lt mean_diff 10, mean_diff) /\
    (dict_get "refs/small.png"
       (result (fst (compare_reference (E := Demo.quiet) Demo.a_jpg candidate 10 ""
                       ("refs/small.png", reference) st)))
       = Some ([] ++ [("/pics/a.jpg", mean_diff)]) <-> below mean_diff 10)) /\
  is_image_similar (E := Demo.quiet) two_png
    ([] ++ ("refs/small.png", reference) :: []) 10 "" st
  = (comparing_error two_png "images do not match" st, Some false).
Proof.
  intros reference candidate two_bands two_png st.
  assert (Hc : Pillow.wf candidate).
  { unfold Pillow.wf; simpl. repeat split; try lia.
    repeat constructor; lia. }
  assert (Hc2 : Pillow.wf two_bands).
  { unfold Pillow.wf; simpl. repeat split; try lia.
    repeat constructor; lia. }
  assert (Hr : Pillow.wf reference).
  { unfold Pillow.wf; simpl. repeat split; try lia.
    repeat constructor; lia. }
  assert (HT : converts_to_float 10) by (vm_compute; reflexivity).
  split; [exact Hc|]. split; [exact Hc2|]. split; [exact Hr|].
  split; [exact HT|]. split.
  - exact (proj1 (@differing_dimensions_scored_on_common_region Demo.quiet
                    Demo.a_jpg candidate reference "refs/small.png" 10 "" st []
                    Hc Hr HT eq_refl) eq_refl).
  - assert (Hbands : Pillow.bands two_bands <> Pillow.bands reference)
      by (simpl; discriminate).
    destruct (proj2 (@differing_dimensions_scored_on_common_region Demo.quiet
                       two_png two_bands reference "refs/small.png" 10 "" st []
                       Hc2 Hr HT eq_refl) Hbands) as [_ Hhandler].
    exact (proj1 (Hhandler [Byte.x02; Byte.x0a; Byte.x14] [] [] st
                    eq_refl eq_refl eq_refl eq_refl)).
Defined.

(** ** Raising the threshold *)

Section Monotonicity.
Context {L : ImageLibrary} {E : Environment L}.
Variables (T1 T2 : Z) (out : string).
Hypothesis threshold_le : T1 <= T2.
Hypothesis export_quiet :
  output_folder_set out = false \/ forall image p, Image_save image p = None.

Lemma grows_refl st : grows st st.
Proof. split; [reflexivity|intros n; apply incl_refl]. Qed.

Lemma export_does_not_raise (image : Image) p :
  (if String.eqb out "" then true
   else match Image_save image p with Some _ => false | None => true end) = true.
Proof.
  destruct export_quiet as [Hout|Hsave].
  - unfold output_folder_set in Hout. apply negb_false_iff in Hout.
    rewrite Hout; reflexivity.
  - rewrite Hsave. destruct (String.eqb out ""); reflexivity.
Qed.

Lemma compare_reference_monotone f image item s1 s2 :
  In (fst item) (keys (result s1)) -> grows s1 s2 ->
  snd (compare_reference f image T1 out item s1)
    = snd (compare_reference f image T2 out item s2) /\
  grows (fst (compare_reference f image T1 out item s1))
        (fst (compare_reference f image T2 out item s2)) /\
  keys (result (fst (compare_reference f image T1 out item s1))) = keys (result s1).
Proof.
  destruct item as [reference_name reference_image].
  change (fst (reference_name, reference_image)) with reference_name.
  intros Hin [Hk Hincl].
  rewrite !compare_reference_cases. unfold img_similarity_check.
  destruct (ImageChops_difference reference_image image) as [e|diff];
    [simpl; repeat split; auto|].
  set (m := np_mean (np_array diff)).
  pose proof (@float_lt_monotone m T1 T2 threshold_le) as Hmono.
  assert (Hin2 : In reference_name (keys (result s2))) by (rewrite <- Hk; exact Hin).
  destruct (@dict_append_present _ reference_name ((location f, m) : res_tuple)
              (result s2) Hin2) as [d2 Hd2].
  destruct (@dict_append_present _ reference_name ((location f, m) : res_tuple)
              (result s1) Hin) as [d1 Hd1].
  pose proof (dict_append_keys _ _ _ Hd1) as Hk1.
  pose proof (dict_append_keys _ _ _ Hd2) as Hk2.
  pose proof (@export_does_not_raise image (Py.path_join out (name f))) as Hexp.
  destruct (float_lt m T1) eqn:H1.
  - rewrite (Hmono eq_refl), Hd1, Hd2. cbv zeta.
    assert (Hg : forall n, incl (dict_list n d1) (dict_list n d2)).
    { intros n. rewrite (@dict_append_list _ _ _ _ _ n Hd1), (@dict_append_list _ _ _ _ _ n Hd2).
      apply incl_app; [apply incl_appl, Hincl|apply incl_appr, incl_refl]. }
    destruct (String.eqb out "");
      [|destruct (Image_save image (Py.path_join out (name f)))];
      simpl; unfold grows; simpl; repeat split;
        try reflexivity; try exact Hg; congruence.
  - destruct (float_lt m T2) eqn:H2.
    + rewrite Hd2. cbv zeta.
      assert (Hg : forall n, incl (dict_list n (result s1)) (dict_list n d2)).
      { intros n. rewrite (@dict_append_list _ _ _ _ _ n Hd2). apply incl_appl, Hincl. }
      destruct (String.eqb out "");
        [|destruct (Image_save image (Py.path_join out (name f)));
          [discriminate|]];
        simpl; unfold grows; simpl; repeat split;
          try reflexivity; try exact Hg; congruence.
    + simpl; repeat split; auto.
Qed.

Lemma for_each_monotone f image (refs : dict Image) : forall s1 s2,
  (forall k, In k (keys refs) -> In k (keys (result s1))) -> grows s1 s2 ->
  snd (for_each (compare_reference f image T1 out) refs s1)
    = snd (for_each (compare_reference f image T2 out) refs s2) /\
  grows (fst (for_each (compare_reference f image T1 out) refs s1))
        (fst (for_each (compare_reference f image T2 out) refs s2)) /\
  keys (result (fst (for_each (compare_reference f image T1 out) refs s1)))
    = keys (result s1).
Proof.
  induction refs as [|item r IH]; intros s1 s2 Hin Hg; simpl.
  - auto.
  - destruct (@compare_reference_monotone f image item s1 s2) as (Hs & Hg' & Hk');
      [apply Hin; left; reflexivity|exact Hg|].
    unfold bind.
    destruct (compare_reference f image T1 out item s1) as [s1' [e1|[]]],
             (compare_reference f image T2 out item s2) as [s2' [e2|[]]];
      simpl in *; try discriminate; auto.
    destruct (IH s1' s2') as (Hs'' & Hg'' & Hk''); [|exact Hg'|].
    + intros k Hkin. rewrite Hk'. apply Hin; right; exact Hkin.
    + repeat split; try apply Hg''; congruence.
Qed.

Lemma is_image_similar_monotone f (refs : dict Image) s1 s2 :
  (forall k, In k (keys refs) -> In k (keys (result s1))) -> grows s1 s2 ->
  grows (fst (is_image_similar f refs T1 out s1))
        (fst (is_image_similar f refs T2 out s2)).
Proof.
  intros Hin Hg. unfold is_image_similar, is_image_similar_try.
  destruct (negb _); [exact Hg|].
  destruct (file_object f) as [e| |e|content]; try exact Hg.
  unfold bind at 1 3, call.
  destruct (Image_open_bytes content) as [e|image]; [exact Hg|].
  unfold bind.
  destruct (@for_each_monotone f image refs s1 s2 Hin Hg) as (Hs & Hg' & _).
  destruct (for_each _ refs s1) as [s1' [e1|[]]],
           (for_each _ refs s2) as [s2' [e2|[]]];
    simpl in *; try discriminate; exact Hg'.
Qed.

Lemma scan_monotone (refs : dict Image) files : forall s1 s2,
  (forall k, In k (keys refs) -> In k (keys (result s1))) -> grows s1 s2 ->
  grows (scan files refs T1 out s1) (scan files refs T2 out s2).
Proof.
  induction files as [|f r IH]; intros s1 s2 Hin Hg; [exact Hg|].
  unfold scan in *; simpl. apply IH.
  - intros k Hk. rewrite is_image_similar_keys. apply Hin, Hk.
  - apply is_image_similar_monotone; assumption.
Qed.

End Monotonicity.

(** ** Loading the references *)

Section LoadingFacts.
Context {L : ImageLibrary} {E : Environment L}.

Lemma dict_set_keys (V : Type) k (v : V) (d : dict V) :
  keys (dict_set k v d) = keys_add k (keys d).
Proof.
  induction d as [|[k0 v0] r IH]; simpl; [reflexivity|].
  destruct (String.eqb k0 k); simpl; [reflexivity|rewrite IH; reflexivity].
Qed.

(** Every list of a result is empty. *)
Lemma dict_set_all_empty (A : Type) k (d : dict (list A)) :
  all_empty d -> all_empty (dict_set k [] d).
Proof.
  intros Hd k' v. destruct (String.eqb_spec k' k) as [->|Hne].
  - rewrite dict_set_get. intros [= <-]; reflexivity.
  - rewrite (dict_set_get_other _ _ Hne). apply Hd.
Qed.

(** The loop that loads the references keeps the keys of the result and
    of [reference_image_list] in step. *)
Lemma load_references_keys folder filenames : forall refs0 st0 st' refs,
  load_references folder filenames refs0 st0 = (st', inr refs) ->
  (keys (result st0) = keys refs0 -> keys (result st') = keys refs) /\
  (all_empty (result st0) -> all_empty (result st')) /\
  ((forall k, In k (keys refs0) -> In k (keys (result st0))) ->
   forall k, In k (keys refs) -> In k (keys (result st'))) /\
  stdout st' = stdout st0 /\ saved st' = saved st0.
Proof.
  induction filenames as [|filename rest IH]; intros refs0 st0 st' refs;
    cbn [load_references].
  - unfold ret. intros [= <- <-]. auto.
  - destruct (Py.endswith_any (Py.lower filename) valid_image_extensions);
      [|apply IH].
    unfold bind at 1, call.
    destruct (Image_open (Py.path_join folder filename)) as [e|image];
      [discriminate|].
    unfold bind, result_set. intros Hload.
    apply IH in Hload. simpl in Hload.
    destruct Hload as (Heq & Hempty & Hsub & Hout & Hsaved).
    repeat split; auto.
    + intros Hk. apply Heq. rewrite !dict_set_keys, Hk. reflexivity.
    + intros He. apply Hempty, dict_set_all_empty, He.
    + intros Hin. apply Hsub. intros k Hk.
      apply dict_set_keys_in. apply dict_set_keys_in in Hk.
      destruct Hk as [Hk|Hk]; [left; exact Hk|right; apply Hin, Hk].
Qed.

Lemma loading_keys folder st0 st' refs :
  loading folder st0 = (st', inr refs) ->
  (result st0 = [] -> keys (result st') = keys refs /\ all_empty (result st')) /\
  (forall k, In k (keys refs) -> In k (keys (result st'))) /\
  stdout st' = stdout st0 /\ saved st' = saved st0.
Proof.
  unfold loading, bind at 1, call.
  destruct (os_listdir folder) as [e|filenames]; [discriminate|].
  intros Hload. apply load_references_keys in Hload.
  destruct Hload as (Heq & Hempty & Hsub & Hout & Hsaved).
  repeat split; auto.
  - apply Heq. rewrite H. reflexivity.
  - apply Hempty. rewrite H. intros k v; discriminate.
  - apply Hsub. intros k [].
Qed.

(** [find_similar_images], step by step. *)
Lemma find_similar_images_cases disk folder T out st :
  find_similar_images disk folder T out st =
  match OpenFileSystem disk with
  | inl e => (st, inl e)
  | inr root =>
      match loading folder (print_to (Line "File system parse completed.") st) with
      | (st1, inl e) =>
          (print_to (Traceback e)
             (print_to (Line ("Error Details: " ++ e))
                (print_to (Line "Error while loading image: ") st1)),
           inr (Some false))
      | (st1, inr refs) =>
          (traverse_file_entries root refs T out (scan_start st1), inr None)
      end
  end.
Proof.
  unfold find_similar_images, bind at 1, call.
  destruct (OpenFileSystem disk) as [e|root]; [reflexivity|].
  unfold bind at 1, print at 1, try_except.
  destruct (loading folder _) as [st1 [e|refs]]; reflexivity.
Qed.

End LoadingFacts.

(** ** Whole runs *)

Section Runs.
Context {L : ImageLibrary} {E : Environment L}.

(** C5 (as the code behaves).  For two thresholds that convert to a float
    (so that no comparison of a score with them raises), and when no
    export can raise (no output folder is configured, or [image.save]
    never raises), every record found with threshold [T1] is also found,
    under the same reference, with any threshold [T2 >= T1], on the same
    disk image and reference folder. *)
Theorem raising_threshold_keeps_matches
    (disk_img_path reference_image_folder_path : string) (T1 T2 : Z)
    (output_folder : string) (st : State) :
  converts_to_float T1 -> converts_to_float T2 ->
  T1 <= T2 ->
  (output_folder_set output_folder = false \/
   forall image p, Image_save image p = None) ->
  forall reference_name t,
    In t (dict_list reference_name
            (result (fst (find_similar_images disk_img_path
                            reference_image_folder_path T1 output_folder st)))) ->
    In t (dict_list reference_name
            (result (fst (find_similar_images disk_img_path
                            reference_image_folder_path T2 output_folder st)))).
Proof.
  intros _ _ HT Hexport reference_name t.
  rewrite !find_similar_images_cases.
  destruct (OpenFileSystem disk_img_path) as [e|root]; [auto|].
  destruct (loading reference_image_folder_path _) as [st1 [e|refs]] eqn:Hload;
    [auto|].
  apply loading_keys in Hload. destruct Hload as (_ & Hsub & _).
  simpl fst. rewrite !traverse_scan.
  apply (@scan_monotone L E T1 T2 output_folder HT Hexport refs (leaves root)
           (scan_start st1) (scan_start st1)).
  - exact Hsub.
  - apply grows_refl.
Qed.

(** C8.  Called with an empty result, the loading of the references
    leaves a result whose keys are the identifiers of the loaded
    references, each with an empty list; the keys stay the same while
    files are scanned and at the end of the traversal, where a reference
    holds exactly the records of the leaves, hence the empty list when no
    leaf matches it. *)
Theorem result_keys_are_the_references
    (reference_image_folder_path : string) (st st' : State)
    (reference_image_list : dict Image) :
  result st = [] ->
  loading reference_image_folder_path st = (st', inr reference_image_list) ->
  keys (result st') = keys reference_image_list /\
  (forall k, In k (keys reference_image_list) ->
             dict_get k (result st') = Some []) /\
  (forall T output_folder files,
      keys (result (scan files reference_image_list T output_folder st'))
      = keys reference_image_list) /\
  (forall T output_folder root,
      keys (result (traverse_file_entries root reference_image_list T
                      output_folder (scan_start st')))
      = keys reference_image_list /\
      forall k, In k (keys reference_image_list) ->
        dict_get k (result (traverse_file_entries root reference_image_list T
                              output_folder (scan_start st')))
        = Some (flat_map
                  (fun f => matches_of f reference_image_list T output_folder
                              (keys reference_image_list) k)
                  (leaves root))).
Proof.
  intros Hempty Hload. apply loading_keys in Hload.
  destruct Hload as (Hinit & _). destruct (Hinit Hempty) as (Hkeys & Hlists).
  assert (Hget : forall k, In k (keys reference_image_list) ->
                           dict_get k (result st') = Some []).
  { intros k Hk. rewrite <- Hkeys in Hk. apply dict_get_in_keys in Hk.
    destruct Hk as [v Hv]. rewrite Hv. f_equal. apply (Hlists k v Hv). }
  split; [exact Hkeys|]. split; [exact Hget|].
  split; [intros; rewrite scan_keys; exact Hkeys|].
  intros T output_folder root.
  assert (Hk' : keys (result (traverse_file_entries root reference_image_list T
                                output_folder (scan_start st')))
                = keys reference_image_list).
  { rewrite traverse_scan, scan_keys. exact Hkeys. }
  split; [exact Hk'|].
  intros k Hk.
  pose proof (scan_delta reference_image_list T output_folder (leaves root)
                (scan_start st') k) as Hd.
  rewrite <- traverse_scan in Hd.
  change (result (scan_start st')) with (result st') in Hd.
  rewrite Hkeys in Hd. unfold dict_list at 1 2 in Hd.
  rewrite (Hget k Hk) in Hd. simpl in Hd.
  rewrite <- Hk' in Hk. apply dict_get_in_keys in Hk. destruct Hk as [v Hv].
  rewrite Hv in Hd. rewrite Hv, Hd. reflexivity.
Qed.

End Runs.

(** Thresholds 3 and 10 on the demo disk, without output folder. *)
Lemma raising_threshold_keeps_matches_witness :
  converts_to_float 3 /\ converts_to_float 10 /\ 3 <= 10 /\
  forall reference_name t,
    In t (dict_list reference_name
            (result (fst (find_similar_images (E := Demo.quiet) "disk.raw" "refs"
                            3 "" initial_state)))) ->
    In t (dict_list reference_name
            (result (fst (find_similar_images (E := Demo.quiet) "disk.raw" "refs"
                            10 "" initial_state)))).
Proof.
  assert (H3 : converts_to_float 3) by (vm_compute; reflexivity).
  assert (H10 : converts_to_float 10) by (vm_compute; reflexivity).
  split; [exact H3|]. split; [exact H10|]. split; [lia|].
  apply (@raising_threshold_keeps_matches Pillow.library Demo.quiet
           "disk.raw" "refs" 3 10 "" initial_state H3 H10);
    [lia|left; reflexivity].
Defined.

(** C5 as stated fails when an export raises: with an output folder that
    cannot be written, [a.jpg] is recorded under the second reference with
    threshold 3, and not with threshold 10, where the failing export of
    the match with the first reference ends the candidate. *)
Lemma raising_threshold_loses_a_match :
  0 <= 3 < 10 /\ converts_to_float 3 /\ converts_to_float 10 /\
  In ("/pics/a.jpg", Fin 0)
     (dict_list "refs/REF2.PNG"
        (result (fst (find_similar_images (E := Demo.readonly) "disk.raw" "refs"
                        3 "out" initial_state)))) /\
  ~ In ("/pics/a.jpg", Fin 0)
       (dict_list "refs/REF2.PNG"
          (result (fst (find_similar_images (E := Demo.readonly) "disk.raw" "refs"
                          10 "out" initial_state)))).
Proof.
  split; [lia|].
  split; [vm_compute; reflexivity|]. split; [vm_compute; reflexivity|].
  split.
  - vm_compute. left; reflexivity.
  - vm_compute. intros [].
Qed.

(** The two references of the demo folder. *)
Lemma result_keys_are_the_references_witness :
  let ref1 := {| Pillow.bands := 1; Pillow.width := 2; Pillow.height := 1;
                 Pillow.rows := [[15; 25]] |} in
  let ref2 := {| Pillow.bands := 1; Pillow.width := 2; Pillow.height := 1;
                 Pillow.rows := [[10; 20]] |} in
  let refs : dict (@Image Pillow.library) :=
    [("refs/ref1.jpg", ref1); ("refs/REF2.PNG", ref2)] in
  let st' : @State Pillow.library :=
    {| result := [("refs/ref1.jpg", []); ("refs/REF2.PNG", [])];
       stdout := []; saved := [] |} in
  loading (E := Demo.quiet) "refs" initial_state = (st', inr refs) /\
  keys (result st') = keys refs /\
  (forall k, In k (keys refs) -> dict_get k (result st') = Some []).
Proof.
  intros ref1 ref2 refs st'.
  split; [reflexivity|].
  pose proof (@result_keys_are_the_references Pillow.library Demo.quiet
                "refs" initial_state st' refs eq_refl eq_refl) as H.
  split; [exact (proj1 H)|exact (proj1 (proj2 H))].
Defined.

(** ** The run and its report *)

Section MainFacts.
Context {L : ImageLibrary} {E : Environment L}.


(** The notice is printed exactly when the result has no key. *)
Lemma report_head (result : dict (list res_tuple)) :
  (result = [] /\ report result = [Line no_match_notice]) \/
  (result <> [] /\ exists rest, report result = Line "Final Report: " :: rest).
Proof.
  destruct result as [|item r]; [left; split; reflexivity|].
  right; split; [discriminate|]. unfold report. simpl List.length.
  simpl negb. cbv iota. eexists. reflexivity.
Qed.


End MainFacts.



(** C7: the code misses the notice.  With one reference loaded and no
    candidate matching it, the result has a key with an empty list; the
    report prints "Final Report: " and nothing else, and the notice that
    no similar image was identified is not printed. *)
Theorem report_omits_no_match_notice :
  let run := main (E := Demo.quiet) "main.py" "disk.raw" "far" 10 "" in
  result (fst run) = [("far/white.bmp", [])] /\
  report (result (fst run)) = [Line "Final Report: "] /\
  ~ In (Line no_match_notice) (stdout (fst run)) /\
  snd run = 0.
Proof.
  intros run. split; [reflexivity|]. split; [reflexivity|].
  split; [|reflexivity].
  vm_compute. intros H.
  repeat (destruct H as [H|H]; [discriminate H|]). exact H.
Qed.

(** * Further properties of the program *)

(** ** The extension filter and unreadable entries *)

Section FilterFacts.
Context {L : ImageLibrary} {E : Environment L}.
Variables (refs : dict Image) (T : Z) (out : string).

Lemma not_candidate_is_skipped f st :
  is_candidate f = false ->
  is_image_similar f refs T out st = (st, Some false).
Proof.
  unfold is_candidate, is_image_similar, is_image_similar_try.
  intros ->. reflexivity.
Qed.

Lemma scan_filter files : forall st,
  scan files refs T out st = scan (filter is_candidate files) refs T out st.
Proof.
  induction files as [|f r IH]; intros st; [reflexivity|].
  cbn [filter]. destruct (is_candidate f) eqn:Hf.
  - unfold scan in *; simpl. apply IH.
  - unfold scan in *; simpl. rewrite (not_candidate_is_skipped _ _ Hf). apply IH.
Qed.

(** X1.  Only the leaf entries whose extension is one of the six image
    extensions (compared in lower case) take part in a traversal: the
    entries with another extension are neither read nor reported, and the
    traversal is the scan of the remaining leaves in depth-first order. *)
Theorem traversal_reads_image_extensions_only (root : FileEntry) (st : State) :
  traverse_file_entries root refs T out st
  = scan (filter is_candidate (leaves root)) refs T out st.
Proof. rewrite traverse_scan. apply scan_filter. Qed.

(** X2.  A candidate whose content cannot be read changes neither the
    result nor the exported files: when [GetFileObject] gives no file
    object the entry is dropped silently, and when [GetFileObject] or
    [read] raises, the error is printed and the entry dropped. *)
Theorem unreadable_candidate_is_skipped (f : File) (st : State) :
  is_candidate f = true ->
  match file_object f with
  | GetFileObject_None =>
      is_image_similar f refs T out st = (st, Some false)
  | GetFileObject_raises e | read_raises e =>
      is_image_similar f refs T out st = (comparing_error f e st, Some false)
      /\ result (comparing_error f e st) = result st
      /\ saved (comparing_error f e st) = saved st
  | read_returns _ => True
  end.
Proof.
  intros Hc. unfold is_image_similar, is_image_similar_try.
  unfold is_candidate in Hc. rewrite Hc. simpl negb. cbv iota.
  destruct (file_object f); auto.
Qed.

End FilterFacts.

(** An entry with an image extension and no file object. *)
Lemma unreadable_candidate_is_skipped_witness :
  let f := {| location := "/pics/gone.PNG"; name := "gone.PNG";
              file_object := GetFileObject_None |} in
  let st : @State Pillow.library :=
    {| result := [("refs/ref1.jpg", [])]; stdout := []; saved := [] |} in
  is_image_similar (E := Demo.quiet) f [] 10 "" st = (st, Some false).
Proof.
  intros f st.
  exact (@unreadable_candidate_is_skipped Pillow.library Demo.quiet [] 10 "" f st
           eq_refl).
Defined.

(** ** Where records and exported files come from *)

Section Provenance.
Context {L : ImageLibrary} {E : Environment L}.
Variables (refs : dict Image) (T : Z) (out : string).

(** A reflexive and transitive relation on states that every iteration
    respects relates the state before and after a loop, a candidate and a
    scan. *)
Section Relation.
Variable R : State -> State -> Prop.
Hypothesis R_refl : forall st, R st st.
Hypothesis R_trans : forall a b c, R a b -> R b c -> R a c.

Lemma for_each_rel {A} (body : A -> Exec unit) (l : list A) :
  (forall x st, In x l -> R st (fst (body x st))) ->
  forall st, R st (fst (for_each body l st)).
Proof.
  induction l as [|x r IH]; intros Hbody st; simpl; [apply R_refl|].
  unfold bind.
  pose proof (Hbody x st (or_introl eq_refl)) as Hx.
  destruct (body x st) as [st' [e|[]]]; simpl in *; [exact Hx|].
  apply R_trans with st'; [exact Hx|].
  apply IH. intros y st0 Hy. apply Hbody. right; exact Hy.
Qed.

Hypothesis R_print : forall o st, R st (print_to o st).

Lemma is_image_similar_rel f :
  (forall file_content image item st,
      is_candidate f = true ->
      file_object f = read_returns file_content ->
      Image_open_bytes file_content = inr image ->
      In item refs ->
      R st (fst (compare_reference f image T out item st))) ->
  forall st, R st (fst (is_image_similar f refs T out st)).
Proof.
  intros Hbody st.
  assert (Herr : forall e st', R st st' -> R st (comparing_error f e st')).
  { intros e st' H. unfold comparing_error.
    repeat (eapply R_trans; [|apply R_print]). exact H. }
  unfold is_image_similar, is_image_similar_try.
  fold (is_candidate f). destruct (is_candidate f) eqn:Hc; simpl negb; cbv iota;
    [|apply R_refl].
  destruct (file_object f) as [e| |e|content] eqn:Hobj; simpl;
    try apply R_refl; try (apply Herr, R_refl).
  unfold bind at 1, call.
  destruct (Image_open_bytes content) as [e|image] eqn:Hopen;
    [apply Herr, R_refl|].
  unfold bind.
  pose proof (@for_each_rel _ (compare_reference f image T out) refs
                (fun item st0 Hin => Hbody content image item st0 eq_refl eq_refl Hopen Hin)
                st) as Hloop.
  destruct (for_each _ refs st) as [st' [e|[]]]; simpl in *;
    [apply Herr, Hloop|exact Hloop].
Qed.

Lemma scan_rel files :
  (forall f st, In f files -> R st (fst (is_image_similar f refs T out st))) ->
  forall st, R st (scan files refs T out st).
Proof.
  induction files as [|f r IH]; intros Hf st; [apply R_refl|].
  unfold scan in *; simpl.
  apply R_trans with (fst (is_image_similar f refs T out st)).
  - apply Hf; left; reflexivity.
  - apply IH. intros g st0 Hg. apply Hf; right; exact Hg.
Qed.

End Relation.

(** The records one iteration adds. *)
Lemma compare_reference_new_record f image reference_name reference_image st n t :
  In t (dict_list n (result (fst (compare_reference f image T out
                                    (reference_name, reference_image) st)))) ->
  In t (dict_list n (result st)) \/
  (n = reference_name /\ fst t = location f /\
   img_similarity_check image reference_image T = inr (true, snd t)).
Proof.
  rewrite compare_reference_cases.
  destruct (img_similarity_check image reference_image T) as [e|[[|] m]];
    simpl; auto.
  destruct (dict_append _ _ (result st)) as [d|] eqn:Hd; simpl; auto.
  assert (Hin : In t (dict_list n d) ->
                In t (dict_list n (result st)) \/
                n = reference_name /\ fst t = location f /\
                @inr Exn _ (true, m) = inr (true, snd t)).
  { rewrite (@dict_append_list _ _ _ _ _ n Hd). intros H.
    apply in_app_or in H. destruct H as [H|H]; [left; exact H|right].
    destruct (String.eqb_spec n reference_name) as [->|]; [|destruct H].
    destruct H as [<-|[]]. auto. }
  destruct (String.eqb out ""); simpl; [exact Hin|].
  destruct (Image_save image _); simpl; exact Hin.
Qed.

(** The files one iteration writes. *)
Lemma compare_reference_new_export f image reference_name reference_image st x :
  In x (saved (fst (compare_reference f image T out
                      (reference_name, reference_image) st))) ->
  In x (saved st) \/
  (output_folder_set out = true /\ x = (Py.path_join out (name f), image) /\
   Image_save image (Py.path_join out (name f)) = None /\
   exists mean_diff,
     img_similarity_check image reference_image T = inr (true, mean_diff)).
Proof.
  rewrite compare_reference_cases. unfold output_folder_set.
  destruct (img_similarity_check image reference_image T) as [e|[[|] m]];
    simpl; auto.
  destruct (dict_append _ _ (result st)) as [d|]; simpl; auto.
  destruct (String.eqb out ""); simpl; auto.
  destruct (Image_save image _) eqn:Hsave; simpl; auto.
  intros H. apply in_app_or in H. destruct H as [H|[<-|[]]]; eauto 10.
Qed.

(** X3.  Every record found in a list after a traversal was there before
    or is earned by a leaf of the tree: its path is the location of a leaf
    with an image extension whose content decodes, it is stored under a
    reference against which that leaf is similar, and its score is
    strictly below the threshold. *)
Theorem recorded_matches_are_sound (root : FileEntry) (st : State)
    (n : string) (t : res_tuple) :
  In t (dict_list n (result (traverse_file_entries root refs T out st))) ->
  In t (dict_list n (result st)) \/
  exists f, In f (leaves root) /\ is_match f refs T n t /\ below (snd t) T.
Proof.
  rewrite traverse_scan.
  set (Q := fun t => exists f, In f (leaves root) /\ is_match f refs T n t
                               /\ below (snd t) T).
  set (R := fun a b : State =>
              forall t, In t (dict_list n (result b)) ->
                        In t (dict_list n (result a)) \/ Q t).
  assert (HR : R st (scan (leaves root) refs T out st)).
  { apply scan_rel.
    - intros a t0 H; left; exact H.
    - intros a b c Hab Hbc t0 H.
      destruct (Hbc t0 H) as [H'|H']; [apply Hab, H'|right; exact H'].
    - intros f st0 Hf. apply is_image_similar_rel.
      + intros a t0 H; left; exact H.
      + intros a b c Hab Hbc t0 H.
        destruct (Hbc t0 H) as [H'|H']; [apply Hab, H'|right; exact H'].
      + intros o a t0 H; left; exact H.
      + intros content image [rn ri] a Hc Hobj Hopen Hin t0 H.
        apply compare_reference_new_record in H.
        destruct H as [H|(-> & Hloc & Hscore)]; [left; exact H|right].
        exists f. split; [exact Hf|]. split.
        * split; [exact Hc|]. split; [exact Hloc|].
          exists content, image, ri. auto.
        * apply float_lt_below.
          symmetry. apply (img_similarity_check_flag _ _ _ Hscore). }
  intros H. apply (HR t H).
Qed.

(** X4.  Every file found among the exported ones after a traversal was
    there before or was written for a leaf of the tree: into the output
    folder, under the name of that leaf, holding its decoded image, which
    is similar to some reference.  Without output folder nothing is
    written. *)
Theorem exports_come_from_matches (root : FileEntry) (st : State) :
  (forall x,
      In x (saved (traverse_file_entries root refs T out st)) ->
      In x (saved st) \/
      exists f, In f (leaves root) /\ is_export f refs T out x) /\
  (out = "" -> saved (traverse_file_entries root refs T out st) = saved st).
Proof.
  rewrite traverse_scan. split.
  - set (Q := fun x => exists f, In f (leaves root) /\ is_export f refs T out x).
    set (R := fun a b : State =>
                forall x, In x (saved b) -> In x (saved a) \/ Q x).
    assert (HR : R st (scan (leaves root) refs T out st)).
    { apply scan_rel.
      - intros a x H; left; exact H.
      - intros a b c Hab Hbc x H.
        destruct (Hbc x H) as [H'|H']; [apply Hab, H'|right; exact H'].
      - intros f st0 Hf. apply is_image_similar_rel.
        + intros a x H; left; exact H.
        + intros a b c Hab Hbc x H.
          destruct (Hbc x H) as [H'|H']; [apply Hab, H'|right; exact H'].
        + intros o a x H; left; exact H.
        + intros content image [rn ri] a Hc Hobj Hopen Hin x H.
          apply compare_reference_new_export in H.
          destruct H as [H|(Hset & -> & Hsave & m & Hscore)];
            [left; exact H|right].
          exists f. split; [exact Hf|].
          split; [exact Hset|]. split; [reflexivity|]. split; [exact Hsave|].
          exists content, rn, ri, m. auto. }
    exact HR.
  - intros Hout.
    apply (@scan_rel (fun a b : State => saved b = saved a)).
    + reflexivity.
    + intros a b c Hab Hbc; congruence.
    + intros f st0 _. apply is_image_similar_rel.
      * reflexivity.
      * intros a b c Hab Hbc; congruence.
      * reflexivity.
      * intros content image [rn ri] a _ _ _ _.
        rewrite compare_reference_cases.
        destruct (img_similarity_check image ri T) as [e|[[|] m]]; auto.
        destruct (dict_append _ _ (result a)); [|reflexivity].
        destruct (String.eqb_spec out "") as [_|Hne]; [reflexivity|contradiction].
Qed.

End Provenance.

(** The record of [a.jpg] under the first reference of the demo folder. *)
Lemma recorded_matches_are_sound_witness :
  let refs : dict (@Image Pillow.library) :=
    [("refs/ref1.jpg",
      {| Pillow.bands := 1; Pillow.width := 2; Pillow.height := 1;
         Pillow.rows := [[15; 25]] |})] in
  let st : @State Pillow.library :=
    {| result := [("refs/ref1.jpg", [])]; stdout := []; saved := [] |} in
  let t : res_tuple := ("/pics/a.jpg", Fin 5) in
  In t (dict_list "refs/ref1.jpg"
          (result (traverse_file_entries (E := Demo.quiet) Demo.disk_root refs
                     10 "" st))) /\
  (In t (dict_list "refs/ref1.jpg" (result st)) \/
   exists f, In f (leaves Demo.disk_root) /\
             is_match (E := Demo.quiet) f refs 10 "refs/ref1.jpg" t /\
             below (snd t) 10).
Proof.
  intros refs st t.
  assert (H : In t (dict_list "refs/ref1.jpg"
                      (result (traverse_file_entries (E := Demo.quiet)
                                 Demo.disk_root refs 10 "" st)))).
  { vm_compute. left; reflexivity. }
  split; [exact H|].
  exact (@recorded_matches_are_sound Pillow.library Demo.quiet refs 10 ""
           Demo.disk_root st "refs/ref1.jpg" t H).
Defined.

(** ** A candidate for which nothing raises *)

Section QuietCandidate.
Context {L : ImageLibrary} {E : Environment L}.
Variables (f : File) (image : Image) (T : Z) (out : string).
Hypothesis export_quiet :
  output_folder_set out = false \/ forall im p, Image_save im p = None.

(** The record of a pair with difference image [diff], if any. *)
Local Abbreviation record_of diff :=
  (if float_lt (np_mean (np_array diff)) T
   then [((location f, np_mean (np_array diff)) : res_tuple)] else []).

Lemma compare_reference_quiet reference_name reference_image diff st :
  In reference_name (keys (result st)) ->
  ImageChops_difference reference_image image = inr diff ->
  let r := compare_reference f image T out (reference_name, reference_image) st in
  snd r = inr tt /\
  keys (result (fst r)) = keys (result st) /\
  forall n, dict_list n (result (fst r))
            = dict_list n (result st)
              ++ (if String.eqb n reference_name then record_of diff else []).
Proof.
  intros Hin Hdiff r. subst r. rewrite compare_reference_cases.
  unfold img_similarity_check. rewrite Hdiff.
  destruct (float_lt (np_mean (np_array diff)) T).
  - destruct (@dict_append_present _ reference_name
                ((location f, np_mean (np_array diff)) : res_tuple) (result st) Hin)
      as [d Hd].
    rewrite Hd. cbv zeta.
    pose proof (@export_does_not_raise L E out export_quiet image
                  (Py.path_join out (name f))) as Hexp.
    pose proof (dict_append_keys _ _ _ Hd) as Hk.
    assert (Hl : forall n, dict_list n d
                           = dict_list n (result st)
                             ++ (if String.eqb n reference_name
                                 then [((location f, np_mean (np_array diff)) : res_tuple)]
                                 else [])).
    { intros n. apply dict_append_list. exact Hd. }
    destruct (String.eqb out "");
      [|destruct (Image_save image (Py.path_join out (name f))); [discriminate|]];
      simpl; auto.
  - simpl. repeat split. intros n.
    destruct (String.eqb n reference_name); rewrite app_nil_r; reflexivity.
Qed.

Lemma for_each_quiet (refs : dict Image) : forall st,
  NoDup (keys refs) ->
  (forall k, In k (keys refs) -> In k (keys (result st))) ->
  (forall n r, In (n, r) refs -> exists d, ImageChops_difference r image = inr d) ->
  let r := for_each (compare_reference f image T out) refs st in
  snd r = inr tt /\
  keys (result (fst r)) = keys (result st) /\
  (forall n ri, In (n, ri) refs ->
     exists d, ImageChops_difference ri image = inr d /\
               dict_list n (result (fst r))
               = dict_list n (result st) ++ record_of d) /\
  (forall n, ~ In n (keys refs) ->
             dict_list n (result (fst r)) = dict_list n (result st)).
Proof.
  induction refs as [|[n0 r0] rest IH]; intros st Hnd Hkeys Hdiff; cbn [for_each].
  - unfold ret; simpl. repeat split; auto. intros n ri [].
  - inversion Hnd as [|? ? Hn0 Hnd']; subst.
    destruct (Hdiff n0 r0 (or_introl eq_refl)) as [d0 Hd0].
    destruct (@compare_reference_quiet n0 r0 d0 st
                (Hkeys n0 (or_introl eq_refl)) Hd0) as (Hs & Hk & Hl).
    unfold bind.
    destruct (compare_reference f image T out (n0, r0) st) as [st1 [e|[]]];
      simpl in Hs, Hk, Hl; [discriminate|].
    destruct (IH st1 Hnd') as (Hs' & Hk' & Hin' & Hout').
    { intros k Hkin. rewrite Hk. apply Hkeys; right; exact Hkin. }
    { intros n r Hr. apply (Hdiff n r); right; exact Hr. }
    cbv zeta in *. split; [exact Hs'|]. split; [congruence|]. split.
    + intros n ri [Heq|Hr].
      * injection Heq as <- <-. exists d0. split; [exact Hd0|].
        rewrite (Hout' n0 Hn0), Hl, String.eqb_refl. reflexivity.
      * destruct (Hin' n ri Hr) as (d & Hd & Hlist).
        exists d. split; [exact Hd|]. rewrite Hlist, Hl.
        destruct (String.eqb_spec n n0) as [->|_].
        { exfalso. apply Hn0. apply (in_map fst) in Hr. exact Hr. }
        rewrite app_nil_r. reflexivity.
    + intros n Hn. rewrite Hout'; [|intros H; apply Hn; right; exact H].
      rewrite Hl. destruct (String.eqb_spec n n0) as [->|_].
      { exfalso. apply Hn. left; reflexivity. }
      apply app_nil_r.
Qed.

End QuietCandidate.

Section QuietCandidateTheorem.
Context {L : ImageLibrary} {E : Environment L}.

(** A candidate that decodes: the loop over the references, then the
    handler if the loop raised. *)
Lemma is_image_similar_decoded f file_content image
    (refs : dict Image) T out st :
  is_candidate f = true ->
  file_object f = read_returns file_content ->
  Image_open_bytes file_content = inr image ->
  is_image_similar f refs T out st =
  match for_each (compare_reference f image T out) refs st with
  | (st', inr _) => (st', None)
  | (st', inl e) => (comparing_error f e st', Some false)
  end.
Proof.
  intros Hc Hobj Hopen.
  unfold is_image_similar, is_image_similar_try.
  unfold is_candidate in Hc. rewrite Hc, Hobj.
  change (negb true) with false. cbv beta iota.
  unfold bind, call, ret. rewrite Hopen.
  destruct (for_each (compare_reference f image T out) refs st) as [st' [e|[]]];
    reflexivity.
Qed.

(** X5.  When the candidate decodes, every comparison succeeds and no
    export can raise, the candidate is scored against every reference,
    each on its own: the list of a reference gets the record of the
    candidate exactly when the score of that pair is below the threshold,
    whatever the scores against the other references, the other lists are
    untouched, and the function ends without [return False]. *)
Theorem candidate_is_scored_against_every_reference
    (f : File) (file_content : bytes) (image : Image)
    (reference_image_list : dict Image) (T : Z) (output_folder : string)
    (st : State) :
  is_candidate f = true ->
  file_object f = read_returns file_content ->
  Image_open_bytes file_content = inr image ->
  NoDup (keys reference_image_list) ->
  (forall k, In k (keys reference_image_list) -> In k (keys (result st))) ->
  (forall n r, In (n, r) reference_image_list ->
               exists d, ImageChops_difference r image = inr d) ->
  (output_folder_set output_folder = false \/
   forall im p, Image_save im p = None) ->
  let run := is_image_similar f reference_image_list T output_folder st in
  snd run = None /\
  (forall n r, In (n, r) reference_image_list ->
     exists mean_diff,
       img_similarity_check image r T = inr (float_lt mean_diff T, mean_diff) /\
       dict_list n (result (fst run))
       = dict_list n (result st)
         ++ (if float_lt mean_diff T then [(location f, mean_diff)] else [])) /\
  (forall n, ~ In n (keys reference_image_list) ->
             dict_list n (result (fst run)) = dict_list n (result st)).
Proof.
  intros Hc Hobj Hopen Hnd Hkeys Hdiff Hq run. subst run.
  rewrite (@is_image_similar_decoded f file_content image reference_image_list
             T output_folder st Hc Hobj Hopen).
  pose proof (@for_each_quiet L E f image T output_folder Hq reference_image_list
                st Hnd Hkeys Hdiff) as Hloop.
  cbv zeta in Hloop.
  destruct (for_each (compare_reference f image T output_folder)
              reference_image_list st) as [st' [e|[]]];
    destruct Hloop as (Hs & _ & Hin & Hout);
    simpl in Hs, Hin, Hout; [discriminate|]. simpl.
  split; [reflexivity|]. split; [|exact Hout].
  intros n r Hr. destruct (Hin n r Hr) as (d & Hd & Hl).
  exists (np_mean (np_array d)). split; [|exact Hl].
  unfold img_similarity_check. rewrite Hd. reflexivity.
Qed.

End QuietCandidateTheorem.

(** [a.jpg] against the two references of the demo folder, at distance 5
    and 0, with threshold 3: recorded under the second one only. *)
Lemma candidate_is_scored_against_every_reference_witness :
  let image := {| Pillow.bands := 1; Pillow.width := 2; Pillow.height := 1;
                  Pillow.rows := [[10; 20]] |} in
  let ref1 := {| Pillow.bands := 1; Pillow.width := 2; Pillow.height := 1;
                 Pillow.rows := [[15; 25]] |} in
  let refs : dict (@Image Pillow.library) :=
    [("refs/ref1.jpg", ref1); ("refs/REF2.PNG", image)] in
  let st : @State Pillow.library :=
    {| result := [("refs/ref1.jpg", []); ("refs/REF2.PNG", [])];
       stdout := []; saved := [] |} in
  let run := is_image_similar (E := Demo.quiet) Demo.a_jpg refs 3 "" st in
  snd run = None /\
  forall n r, In (n, r) refs ->
    exists mean_diff,
      img_similarity_check (L := Pillow.library) image r 3
        = inr (float_lt mean_diff 3, mean_diff) /\
      dict_list n (result (fst run))
      = dict_list n (result st)
        ++ (if float_lt mean_diff 3 then [("/pics/a.jpg", mean_diff)] else []).
Proof.
  intros image ref1 refs st run.
  assert (Hnd : NoDup (keys refs)).
  { repeat constructor; simpl; intuition discriminate. }
  assert (Hk : forall k, In k (keys refs) -> In k (keys (result st)))
    by (intros k H; exact H).
  assert (Hd : forall n r, In (n, r) refs ->
                 exists d, ImageChops_difference (ImageLibrary := Pillow.library) r image = inr d).
  { intros n r [H|[H|[]]]; injection H as <- <-; eexists; reflexivity. }
  pose proof (@candidate_is_scored_against_every_reference Pillow.library
                Demo.quiet Demo.a_jpg (Demo.gray [Byte.x0a; Byte.x14]) image refs
                3 "" st eq_refl eq_refl eq_refl Hnd Hk Hd (or_introl eq_refl)) as H.
  split; [exact (proj1 H)|exact (proj1 (proj2 H))].
Defined.

(** ** The report and the exit status *)

Section ReportFacts.

Lemma report_block_stat (item : string * list res_tuple) path score :
  In (Stat path score)
     (let '(reference_image_name, similar_images) := item in
      if negb (Nat.eqb (List.length similar_images) 0)
      then Line ("For reference Image " ++ reference_image_name ++ ": ")
           :: map (fun stat : res_tuple => Stat (fst stat) (snd stat)) similar_images
      else [])
  <-> In (path, score) (snd item).
Proof.
  destruct item as [n l]; simpl snd.
  destruct l as [|t l]; simpl negb; cbv iota; [simpl; tauto|].
  split.
  - intros [H|H]; [discriminate|].
    apply in_map_iff in H. destruct H as ([p s] & Heq & Hin).
    simpl in Heq. injection Heq as -> ->. exact Hin.
  - intros H. right.
    apply in_map_iff. exists (path, score). split; [reflexivity|exact H].
Qed.

(** X6.  The final report prints a line for a path and a score exactly
    when that record is in the list of some reference; it prints the name
    of every reference whose list is not empty; and it prints the notice
    that no similar image was identified exactly when the result has no
    key at all. *)
Theorem report_prints_exactly_the_records (result : dict (list res_tuple)) :
  (forall path score,
      In (Stat path score) (report result) <->
      exists reference_name l, In (reference_name, l) result /\ In (path, score) l) /\
  (forall reference_name l,
      In (reference_name, l) result -> l <> [] ->
      In (Line ("For reference Image " ++ reference_name ++ ": ")) (report result)) /\
  (In (Line no_match_notice) (report result) <-> result = []).
Proof.
  unfold report. split; [|split].
  - intros path score. rewrite in_app_iff, in_flat_map. split.
    + intros [H|H].
      * destruct (negb _); destruct H as [H|[]]; discriminate.
      * destruct H as ([n l] & Hin & Hblock).
        apply (report_block_stat (n, l)) in Hblock. eauto.
    + intros (n & l & Hin & Hrec). right. exists (n, l). split; [exact Hin|].
      apply (report_block_stat (n, l)). exact Hrec.
  - intros n l Hin Hne. apply in_or_app. right. apply in_flat_map.
    exists (n, l). split; [exact Hin|].
    destruct l as [|t l]; [congruence|]. left. reflexivity.
  - split.
    + intros H. apply in_app_or in H. destruct result as [|item r]; [reflexivity|].
      exfalso. destruct H as [H|H].
      * simpl in H. destruct H as [H|[]]. discriminate.
      * apply in_flat_map in H. destruct H as ([n l] & _ & H).
        destruct (negb _); [|exact H].
        destruct H as [H|H]; [discriminate|].
        apply in_map_iff in H. destruct H as (t & Ht & _). discriminate.
    + intros ->. left. reflexivity.
Qed.

End ReportFacts.

(** ** More on the loading of the references *)

Section MoreLoading.
Context {L : ImageLibrary} {E : Environment L}.
Variable folder : string.

Lemma load_references_filter filenames : forall refs st,
  load_references folder filenames refs st
  = load_references folder (filter is_image_name filenames) refs st.
Proof.
  induction filenames as [|fn rest IH]; intros refs st; [reflexivity|].
  cbn [filter load_references]. fold (is_image_name fn).
  destruct (is_image_name fn) eqn:Hfn; [|apply IH].
  cbn [load_references]. fold (is_image_name fn). rewrite Hfn.
  unfold bind at 1 3, call.
  destruct (Image_open (Py.path_join folder fn)); [reflexivity|].
  unfold bind, result_set. apply IH.
Qed.

Lemma load_references_app pre post : forall refs st,
  load_references folder (pre ++ post) refs st =
  match load_references folder pre refs st with
  | (st1, inr refs1) => load_references folder post refs1 st1
  | (st1, inl e) => (st1, inl e)
  end.
Proof.
  induction pre as [|fn rest IH]; intros refs st; [reflexivity|].
  cbn [app load_references].
  destruct (Py.endswith_any (Py.lower fn) valid_image_extensions); [|apply IH].
  unfold bind at 1 3, call.
  destruct (Image_open (Py.path_join folder fn)); [reflexivity|].
  unfold bind, result_set. apply IH.
Qed.

(** The references loaded so far are the images that [Image.open] gives
    for the listed names with an image extension. *)
Lemma load_references_content filenames : forall refs0 st0 st' refs,
  load_references folder filenames refs0 st0 = (st', inr refs) ->
  (forall k, In k (keys refs) <->
             In k (keys refs0) \/
             exists fn, In fn filenames /\ is_image_name fn = true /\
                        k = Py.path_join folder fn) /\
  ((forall k image, dict_get k refs0 = Some image -> Image_open k = inr image) ->
   forall k image, dict_get k refs = Some image -> Image_open k = inr image).
Proof.
  induction filenames as [|fn rest IH]; intros refs0 st0 st' refs;
    cbn [load_references].
  - unfold ret. intros [= <- <-]. split; [|auto].
    intros k. split; [auto|]. intros [H|(fn & [] & _)]. exact H.
  - fold (is_image_name fn). destruct (is_image_name fn) eqn:Hfn.
    + unfold bind at 1, call.
      destruct (Image_open (Py.path_join folder fn)) as [e|image] eqn:Hopen;
        [discriminate|].
      unfold bind, result_set. intros Hload. apply IH in Hload.
      destruct Hload as (Hkeys & Himg). split.
      * intros k. rewrite Hkeys, dict_set_keys_in. split.
        -- intros [[->|H]|(fn' & Hin & Hn & ->)].
           ++ right. exists fn. repeat split; auto. left; reflexivity.
           ++ left; exact H.
           ++ right. exists fn'. repeat split; auto. right; exact Hin.
        -- intros [H|(fn' & [<-|Hin] & Hn & ->)].
           ++ left; right; exact H.
           ++ left; left; reflexivity.
           ++ right. exists fn'. auto.
      * intros H0. apply Himg. intros k im.
        destruct (String.eqb_spec k (Py.path_join folder fn)) as [->|Hne].
        -- rewrite dict_set_get. intros [= <-]. exact Hopen.
        -- rewrite (dict_set_get_other _ _ Hne). apply H0.
    + intros Hload. apply IH in Hload. destruct Hload as (Hkeys & Himg).
      split; [|exact Himg].
      intros k. rewrite Hkeys. split.
      * intros [H|(fn' & Hin & Hn & ->)]; [left; exact H|].
        right. exists fn'. repeat split; auto. right; exact Hin.
      * intros [H|(fn' & [<-|Hin] & Hn & ->)]; [left; exact H|congruence|].
        right. exists fn'. auto.
Qed.

(** X8.  Loading opens the listed names that end (in lower case) with an
    image extension, and no other: the names without such an ending do
    not matter, the identifiers of the loaded references are exactly the
    folder joined with those names, and each identifier holds the image
    that [Image.open] gives for that path. *)
Theorem loaded_references_are_the_image_files
    (filenames : list string) (st st' : State) (refs : dict Image) :
  os_listdir folder = inr filenames ->
  loading folder st = (st', inr refs) ->
  load_references folder (filter is_image_name filenames) [] st = (st', inr refs) /\
  (forall k, In k (keys refs) <->
             exists fn, In fn filenames /\ is_image_name fn = true /\
                        k = Py.path_join folder fn) /\
  (forall k image, dict_get k refs = Some image -> Image_open k = inr image).
Proof.
  intros Hlist. unfold loading, bind, call. rewrite Hlist. intros Hload.
  split; [rewrite <- load_references_filter; exact Hload|].
  apply load_references_content in Hload. destruct Hload as (Hkeys & Himg).
  split.
  - intros k. rewrite Hkeys. split; [intros [[]|H]; exact H|auto].
  - apply Himg. intros k image; discriminate.
Qed.

(** X9.  Loading stops at the first image file that [Image.open] cannot
    open: the names after it are not looked at, the error is the one
    [Image.open] raised, and the result keeps the keys set for the files
    loaded before it. *)
Theorem loading_stops_at_first_failure
    (before after : list string) (filename : string) (e : Exn)
    (st st1 : State) (refs1 : dict Image) :
  os_listdir folder = inr (before ++ filename :: after) ->
  load_references folder before [] st = (st1, inr refs1) ->
  is_image_name filename = true ->
  Image_open (Py.path_join folder filename) = inl e ->
  loading folder st = (st1, inl e) /\
  (forall k, In k (keys refs1) -> In k (keys (result st1))).
Proof.
  intros Hlist Hbefore Hname Hopen. split.
  - unfold loading, bind at 1, call. rewrite Hlist.
    rewrite load_references_app, Hbefore. cbn [load_references].
    fold (is_image_name filename). rewrite Hname.
    unfold bind, call. rewrite Hopen. reflexivity.
  - apply load_references_keys in Hbefore.
    destruct Hbefore as (_ & _ & Hsub & _). apply Hsub. intros k [].
Qed.

End MoreLoading.

(** The demo folder [refs]: two image files and a text file. *)
Lemma loaded_references_are_the_image_files_witness :
  let st' : @State Pillow.library :=
    {| result := [("refs/ref1.jpg", []); ("refs/REF2.PNG", [])];
       stdout := []; saved := [] |} in
  let refs : dict (@Image Pillow.library) :=
    [("refs/ref1.jpg",
      {| Pillow.bands := 1; Pillow.width := 2; Pillow.height := 1;
         Pillow.rows := [[15; 25]] |});
     ("refs/REF2.PNG",
      {| Pillow.bands := 1; Pillow.width := 2; Pillow.height := 1;
         Pillow.rows := [[10; 20]] |})] in
  os_listdir (Environment := Demo.quiet) "refs"
    = inr ["ref1.jpg"; "notes.txt"; "REF2.PNG"] /\
  load_references (E := Demo.quiet) "refs"
    (filter is_image_name ["ref1.jpg"; "notes.txt"; "REF2.PNG"]) [] initial_state
  = (st', inr refs).
Proof.
  intros st' refs. split; [reflexivity|].
  exact (proj1 (@loaded_references_are_the_image_files Pillow.library Demo.quiet
                  "refs" ["ref1.jpg"; "notes.txt"; "REF2.PNG"] initial_state st'
                  refs eq_refl eq_refl)).
Defined.

(** [bad.png] is listed and cannot be opened: [later.gif] is not loaded. *)
Lemma loading_stops_at_first_failure_witness :
  let st1 : @State Pillow.library :=
    {| result := [("mixed/ref1.jpg", [])]; stdout := []; saved := [] |} in
  loading (E := MoreDemo.mixed) "mixed" initial_state
    = (st1, inl "No such file or directory") /\
  (forall k, In k ["mixed/ref1.jpg"] -> In k (keys (result st1))).
Proof.
  intros st1.
  exact (@loading_stops_at_first_failure Pillow.library MoreDemo.mixed "mixed"
           ["ref1.jpg"] ["later.gif"] "bad.png" "No such file or directory"
           initial_state st1
           [("mixed/ref1.jpg",
             {| Pillow.bands := 1; Pillow.width := 2; Pillow.height := 1;
                Pillow.rows := [[15; 25]] |})]
           eq_refl eq_refl eq_refl eq_refl).
Defined.

(** ** Scores in the 8-bit model, continued *)

Section PillowScores.
Import Pillow.

Lemma chop_comm x y : chop x y = chop y x.
Proof. unfold chop. f_equal. f_equal. lia. Qed.

Lemma chop_range x y : 0 <= chop x y <= 255.
Proof. unfold chop. lia. Qed.

Lemma zip_with_swap {A B C} (f : A -> B -> C) (a : list A) (b : list B) :
  zip_with f a b = zip_with (fun y x => f x y) b a.
Proof.
  revert b; induction a as [|x a IH]; intros [|y b]; simpl; try reflexivity.
  rewrite IH; reflexivity.
Qed.

Lemma zip_with_ext {A B C} (f g : A -> B -> C) (a : list A) (b : list B) :
  (forall x y, f x y = g x y) -> zip_with f a b = zip_with g a b.
Proof.
  intros Hfg; revert b; induction a as [|x a IH]; intros [|y b]; simpl;
    try reflexivity.
  rewrite Hfg, IH; reflexivity.
Qed.

Lemma difference_rows_comm (ra rb : list (list Z)) :
  zip_with (zip_with chop) ra rb = zip_with (zip_with chop) rb ra.
Proof.
  rewrite zip_with_swap. apply zip_with_ext. intros x y.
  rewrite zip_with_swap. apply zip_with_ext. intros u v. apply chop_comm.
Qed.

(** X10.  The score does not depend on which image is the candidate and
    which the reference: swapping the two arguments of
    [img_similarity_check] gives the same answer, error included. *)
Theorem score_is_symmetric (a b : Bitmap) (T : Z) :
  img_similarity_check (L := library) a b T
  = img_similarity_check (L := library) b a T.
Proof.
  unfold img_similarity_check; simpl. unfold difference.
  rewrite (Nat.eqb_sym (bands b) (bands a)).
  destruct (Nat.eqb (bands a) (bands b)); [|reflexivity].
  simpl. rewrite (difference_rows_comm (rows b) (rows a)). reflexivity.
Qed.

Lemma difference_samples_range (ra rb : list (list Z)) :
  Forall (fun x => 0 <= x <= 255) (List.concat (zip_with (zip_with chop) ra rb)).
Proof.
  revert rb; induction ra as [|r ra IH]; intros [|r' rb]; simpl; auto.
  apply Forall_app. split; [|apply IH].
  clear. revert r'; induction r as [|x r IH]; intros [|y r']; simpl; auto.
  constructor; [apply chop_range|apply IH].
Qed.

Lemma np_sum_range (a : list Z) :
  Forall (fun x => 0 <= x <= 255) a ->
  0 <= np_sum a <= 255 * Z.of_nat (List.length a).
Proof.
  induction 1 as [|x a Hx Ha IH]; simpl np_sum; [simpl; lia|].
  change (List.length (x :: a)) with (S (List.length a)). lia.
Qed.

Lemma np_mean_range (a : list Z) :
  Forall (fun x => 0 <= x <= 255) a ->
  match np_mean a with
  | NaN => a = []
  | Fin q => (0 <= q /\ q <= 255)%Q
  end.
Proof.
  intros Ha. pose proof (np_sum_range Ha) as Hs.
  destruct a as [|x a]; [reflexivity|].
  unfold np_mean. set (s := np_sum (x :: a)) in *.
  set (n := List.length (x :: a)) in *.
  assert (Hn : Z.pos (Pos.of_nat n) = Z.of_nat n).
  { subst n. simpl List.length.
    rewrite <- positive_nat_Z, Nat2Pos.id; [reflexivity|discriminate]. }
  clearbody s n.
  split; rewrite Qred_correct; unfold Qle; cbn [Qnum Qden].
  - lia.
  - rewrite Hn. lia.
Qed.

(** X11.  A computed score is a number between 0 and 255 (or [nan] when
    the difference image has no sample); hence no pair is similar under a
    threshold of 0 or less, and every pair with a numeric score is
    similar under a threshold above 255. *)
Theorem score_is_between_0_and_255 (a b : Bitmap) (T : Z)
    (is_similar : bool) (mean_diff : npfloat) :
  img_similarity_check (L := library) a b T = inr (is_similar, mean_diff) ->
  match mean_diff with
  | NaN => is_similar = false
  | Fin q => (0 <= q /\ q <= 255)%Q /\
             (T <= 0 -> is_similar = false) /\
             (255 < T -> is_similar = true)
  end.
Proof.
  unfold img_similarity_check; simpl. unfold difference.
  destruct (Nat.eqb (bands b) (bands a)); [|discriminate]. simpl.
  intros [= <- <-].
  pose proof (np_mean_range (difference_samples_range (rows b) (rows a))) as Hm.
  destruct (np_mean _) as [q|]; [|reflexivity].
  destruct Hm as [H0 H255]. split; [auto|]. split.
  - intros HT. apply not_true_iff_false. intros Hlt.
    apply (float_lt_below (Fin q) T) in Hlt. simpl in Hlt.
    apply (Qlt_not_le _ _ Hlt). apply Qle_trans with 0%Q; [|exact H0].
    change 0%Q with (inject_Z 0). rewrite <- Zle_Qle. exact HT.
  - intros HT. apply (float_lt_below (Fin q) T). simpl.
    apply Qle_lt_trans with 255%Q; [exact H255|].
    change 255%Q with (inject_Z 255). rewrite <- Zlt_Qlt. exact HT.
Qed.

End PillowScores.

(** [a.jpg] against the first demo reference: score 5. *)
Lemma score_is_between_0_and_255_witness :
  let a := {| Pillow.bands := 1; Pillow.width := 2; Pillow.height := 1;
              Pillow.rows := [[10; 20]] |} in
  let b := {| Pillow.bands := 1; Pillow.width := 2; Pillow.height := 1;
              Pillow.rows := [[15; 25]] |} in
  img_similarity_check (L := Pillow.library) a b 10 = inr (true, Fin 5) /\
  ((0 <= 5 /\ 5 <= 255)%Q /\ (10 <= 0 -> true = false) /\ (255 < 10 -> true = true)).
Proof.
  intros a b. split; [reflexivity|].
  exact (@score_is_between_0_and_255 a b 10 true (Fin 5) eq_refl).
Defined.

Section NonPositiveThreshold.
Import Pillow.
Context {E : Environment library}.

Lemma not_similar_under_nonpositive_threshold (a b : Bitmap) (T : Z) :
  T <= 0 ->
  match img_similarity_check (L := library) a b T with
  | inl _ => True
  | inr (is_similar, _) => is_similar = false
  end.
Proof.
  intros HT.
  unfold img_similarity_check; simpl. unfold difference.
  destruct (Nat.eqb (bands b) (bands a)); [|exact I]. simpl.
  pose proof (np_mean_range (difference_samples_range (rows b) (rows a))) as Hm.
  destruct (np_mean _) as [q|]; [|reflexivity].
  destruct Hm as [H0 _].
  apply not_true_iff_false. intros Hlt.
  apply (float_lt_below (Fin q) T) in Hlt. simpl in Hlt.
  apply (Qlt_not_le _ _ Hlt). apply Qle_trans with 0%Q; [|exact H0].
  change 0%Q with (inject_Z 0). rewrite <- Zle_Qle. exact HT.
Qed.

(** X12.  With a threshold of 0 or less a traversal records nothing and
    exports nothing, whatever the disk image and the references: even a
    copy of a reference, whose score is 0, is not a match. *)
Theorem nonpositive_threshold_matches_nothing
    (root : FileEntry) (refs : dict Image) (T : Z) (out : string) (st : State) :
  T <= 0 ->
  result (traverse_file_entries root refs T out st) = result st /\
  saved (traverse_file_entries root refs T out st) = saved st.
Proof.
  intros HT. rewrite traverse_scan.
  apply (@scan_rel library E refs T out
           (fun a b : State => result b = result a /\ saved b = saved a)).
  - auto.
  - intros a b c [Hab Hab'] [Hbc Hbc']. split; congruence.
  - intros f st0 _. apply is_image_similar_rel.
    + auto.
    + intros a b c [Hab Hab'] [Hbc Hbc']. split; congruence.
    + intros o a. split; reflexivity.
    + intros content image [rn ri] a _ _ _ _.
      pose proof (@not_similar_under_nonpositive_threshold image ri T HT) as Hs.
      assert (Hrun : compare_reference f image T out (rn, ri) a
                     = match img_similarity_check (L := library) image ri T with
                       | inl e => (a, inl e)
                       | inr _ => (a, inr tt)
                       end).
      { etransitivity;
          [exact (@compare_reference_cases library E f image T out rn ri a)|].
        destruct (img_similarity_check (L := library) image ri T) as [e|[s m]];
          [reflexivity|]. rewrite Hs. reflexivity. }
      rewrite Hrun.
      destruct (img_similarity_check (L := library) image ri T);
        split; reflexivity.
Qed.

End NonPositiveThreshold.

(** Threshold 0 on the demo disk, whose [a.jpg] is a copy of the second
    reference. *)
Lemma nonpositive_threshold_matches_nothing_witness :
  let refs : dict (@Image Pillow.library) :=
    [("refs/REF2.PNG",
      {| Pillow.bands := 1; Pillow.width := 2; Pillow.height := 1;
         Pillow.rows := [[10; 20]] |})] in
  let st : @State Pillow.library :=
    {| result := [("refs/REF2.PNG", [])]; stdout := []; saved := [] |} in
  0 <= 0 /\
  result (traverse_file_entries (E := Demo.quiet) Demo.disk_root refs 0 "out" st)
    = result st /\
  saved (traverse_file_entries (E := Demo.quiet) Demo.disk_root refs 0 "out" st)
    = saved st.
Proof.
  intros refs st. split; [lia|].
  apply (@nonpositive_threshold_matches_nothing Demo.quiet Demo.disk_root refs 0
           "out" st). lia.
Defined.

(** ** The command line *)

Section GetoptFacts.

Local Abbreviation shortopts := "hd:r:i:o:"%string.

Lemma getopt_loop_spelled (opts : list (string * string)) :
  forall (acc : list (string * string)) (operands : list string) (fuel : nat),
  Forall known_option opts ->
  match operands with
  | [] => True
  | a :: _ => String.prefix "-" a = false \/ a = "-"
  end ->
  (List.length (flat_map spell opts ++ operands) <= fuel)%nat ->
  Getopt.getopt_loop fuel acc (flat_map spell opts ++ operands) shortopts
  = inr (acc ++ opts, operands).
Proof.
  induction opts as [|[flag arg] rest IH]; intros acc operands fuel Hknown Hop Hfuel.
  - rewrite app_nil_r. cbn [flat_map app].
    destruct fuel as [|fuel]; [reflexivity|].
    destruct operands as [|a r]; [reflexivity|].
    cbn [Getopt.getopt_loop].
    destruct Hop as [Hp| ->]; [rewrite Hp|]; reflexivity.
  - inversion Hknown as [|? ? Hk Hrest]; subst.
    assert (Hacc : forall x, (acc ++ [x]) ++ rest = acc ++ x :: rest)
      by (intros x; rewrite <- app_assoc; reflexivity).
    destruct Hk as [[Hf Ha]|Hf]; simpl in Hf; [simpl in Ha; subst|].
    + cbn [flat_map spell fst snd app] in *. simpl String.eqb in *. cbv iota in *.
      cbn [app] in *.
      destruct fuel as [|fuel]; [simpl in Hfuel; lia|].
      cbn. rewrite IH; [rewrite Hacc; reflexivity|assumption|assumption|].
      simpl in Hfuel. lia.
    + assert (Hspell : spell (flag, arg) = [flag; arg]).
      { unfold spell. simpl fst. simpl snd.
        destruct Hf as [<-|[<-|[<-|[<-|[]]]]]; reflexivity. }
      cbn [flat_map] in *. rewrite Hspell in *. cbn [app] in *.
      destruct fuel as [|fuel]; [simpl in Hfuel; lia|].
      assert (Hfuel' : (List.length (flat_map spell rest ++ operands) <= fuel)%nat)
        by (simpl in Hfuel; lia).
      destruct Hf as [<-|[<-|[<-|[<-|[]]]]]; cbn;
        (rewrite IH; [rewrite Hacc; reflexivity|assumption|assumption|exact Hfuel']).
Qed.

(** X13.  Options written one per flag, each value in the argument after
    its flag, are read back by [getopt] as they were written, in order,
    whatever the values are (a value may be empty or start with a dash),
    and the operands that follow them are left over. *)
Theorem getopt_reads_spelled_options
    (opts : list (string * string)) (operands : list string) :
  Forall known_option opts ->
  match operands with
  | [] => True
  | a :: _ => String.prefix "-" a = false \/ a = "-"
  end ->
  Getopt.getopt (flat_map spell opts ++ operands) shortopts = inr (opts, operands).
Proof.
  intros Hknown Hop. unfold Getopt.getopt.
  apply (@getopt_loop_spelled opts [] operands _ Hknown Hop). apply Nat.le_refl.
Qed.

End GetoptFacts.

(** A value that starts with a dash, and an operand. *)
Lemma getopt_reads_spelled_options_witness :
  Getopt.getopt (flat_map spell [("-d", "disk.raw"); ("-i", "-5"); ("-h", "")]
                   ++ ["extra"]) "hd:r:i:o:"
  = inr ([("-d", "disk.raw"); ("-i", "-5"); ("-h", "")], ["extra"]).
Proof.
  apply (@getopt_reads_spelled_options
           [("-d", "disk.raw"); ("-i", "-5"); ("-h", "")] ["extra"]).
  - apply Forall_cons; [right; simpl; tauto|].
    apply Forall_cons; [right; simpl; tauto|].
    apply Forall_cons; [left; split; reflexivity|apply Forall_nil].
  - left; reflexivity.
Defined.

Section OptionFacts.
Context {L : ImageLibrary} {E : Environment L} {S : Shell}.

Lemma process_options_app before after : forall o made,
  process_options (before ++ after) o made =
  match process_options before o made with
  | Continue o' made' => process_options after o' made'
  | other => other
  end.
Proof.
  induction before as [|[opt arg] rest IH]; intros o made; [reflexivity|].
  cbn [app process_options].
  destruct (String.eqb opt "-h"); [reflexivity|].
  destruct (str_in opt "-d"); [apply IH|].
  destruct (str_in opt "-r"); [apply IH|].
  destruct (str_in opt "-i"); [destruct (py_int arg); [reflexivity|apply IH]|].
  destruct (str_in opt "-o"); [destruct (os_makedirs arg); [reflexivity|apply IH]|].
  apply IH.
Qed.

Lemma process_options_last opts : forall o made,
  Forall sets_a_variable opts ->
  (forall a, In a (values_of "-i" opts) -> exists n, py_int a = inr n) ->
  (forall a, In a (values_of "-o" opts) -> os_makedirs a = None) ->
  process_options opts o made
  = Continue
      {| opt_disk_image_path := last_value "-d" opts (opt_disk_image_path o);
         opt_reference_image_folder_path :=
           last_value "-r" opts (opt_reference_image_folder_path o);
         opt_similarity_threshold := last_threshold opts (opt_similarity_threshold o);
         opt_output_folder := last_value "-o" opts (opt_output_folder o) |}
      (made ++ values_of "-o" opts).
Proof.
  induction opts as [|[opt arg] rest IH]; intros o made Hflags Hint Hdir.
  - simpl. rewrite app_nil_r. destruct o; reflexivity.
  - inversion Hflags as [|? ? Hflag Hrest]; subst.
    unfold sets_a_variable in Hflag; simpl in Hflag.
    destruct Hflag as [<-|[<-|[<-|[<-|[]]]]].
    + cbn. rewrite IH; auto.
    + cbn. rewrite IH; auto.
    + destruct (Hint arg) as [n Hn]; [left; reflexivity|].
      cbn. rewrite Hn. rewrite IH; auto.
      intros a Ha. apply Hint. right. exact Ha.
    + pose proof (Hdir arg (or_introl eq_refl)) as Hmk.
      cbn. rewrite Hmk. rewrite IH; auto.
      * rewrite <- app_assoc. reflexivity.
      * intros a Ha. apply Hdir. right. exact Ha.
Qed.

Lemma spelled_length opts :
  opts <> [] -> Forall sets_a_variable opts ->
  (2 <= List.length (flat_map spell opts))%nat.
Proof.
  destruct opts as [|[opt arg] rest]; [congruence|]. intros _ Hflags.
  inversion Hflags as [|? ? Hflag _]; subst.
  unfold sets_a_variable in Hflag; simpl in Hflag.
  cbn [flat_map]. rewrite length_app.
  destruct Hflag as [<-|[<-|[<-|[<-|[]]]]]; simpl; lia.
Qed.

(** X14.  A command line that spells options [-d], [-r], [-i] and [-o]
    only, with integers after [-i] and directories that can be created
    after [-o], runs the scan with the value of the last occurrence of
    each option (no disk image, no reference folder, threshold 10 and no
    output folder when the option is absent), after creating every
    directory given by [-o], in the order of the command line. *)
Theorem program_uses_the_last_options (argv0 : string)
    (opts : list (string * string)) :
  opts <> [] ->
  Forall sets_a_variable opts ->
  (forall a, In a (values_of "-i" opts) -> exists n, py_int a = inr n) ->
  (forall a, In a (values_of "-o" opts) -> os_makedirs a = None) ->
  let run := main argv0 (last_value "-d" opts "") (last_value "-r" opts "")
               (last_threshold opts 10) (last_value "-o" opts "") in
  program argv0 (flat_map spell opts)
  = {| final := fst run; exit_status := snd run; created := values_of "-o" opts |}.
Proof.
  intros Hne Hflags Hint Hdir run. unfold program.
  pose proof (spelled_length Hne Hflags) as Hlen.
  destruct (Nat.ltb_spec (1 + List.length (flat_map spell opts)) 3) as [Hlt|_];
    [lia|].
  assert (Hknown : Forall known_option opts).
  { revert Hflags. apply Forall_weaken. intros x Hx. right. exact Hx. }
  assert (Hget : Getopt.getopt (flat_map spell opts) "hd:r:i:o:" = inr (opts, [])).
  { unfold Getopt.getopt.
    pose proof (@getopt_loop_spelled opts [] []
                  (List.length (flat_map spell opts)) Hknown I) as H.
    rewrite app_nil_r in H. apply H. apply Nat.le_refl. }
  rewrite Hget, (@process_options_last opts default_options [] Hflags Hint Hdir).
  reflexivity.
Qed.

(** X15.  The usage line is the whole output in three situations: with
    fewer than two arguments the exit status is 1, whatever the
    arguments ([-h] included); when [getopt] rejects the command line the
    exit status is 2 and no option has been acted on; and when the
    options hold [-h], the options before it being processed without
    error, the exit status is 0, the options after it are ignored and the
    disk image is not opened. *)
Theorem usage_and_exit_status (argv0 : string) (args : list string) :
  ((List.length args < 2)%nat -> program argv0 args = usage_exit argv0 1 []) /\
  ((2 <= List.length args)%nat ->
   forall e, Getopt.getopt args "hd:r:i:o:" = inl e ->
             program argv0 args = usage_exit argv0 2 []) /\
  ((2 <= List.length args)%nat ->
   forall opts operands before after o made,
     Getopt.getopt args "hd:r:i:o:" = inr (opts, operands) ->
     opts = before ++ ("-h", "") :: after ->
     process_options before default_options [] = Continue o made ->
     program argv0 args = usage_exit argv0 0 made).
Proof.
  unfold program. split; [|split].
  - intros Hlen.
    destruct (Nat.ltb_spec (1 + List.length args) 3); [reflexivity|lia].
  - intros Hlen e Hget.
    destruct (Nat.ltb_spec (1 + List.length args) 3); [lia|].
    rewrite Hget. reflexivity.
  - intros Hlen opts operands before after o made Hget -> Hbefore.
    destruct (Nat.ltb_spec (1 + List.length args) 3); [lia|].
    rewrite Hget, process_options_app, Hbefore. reflexivity.
Qed.

(** X16.  A value of [-i] that [int] rejects, or a directory of [-o] that
    cannot be created, ends the program with exit status 1 and an empty
    standard output (the exception is not caught): the options after it
    are not processed and the disk image is not opened, while the
    directories of the earlier [-o] options have been created. *)
Theorem bad_option_value_ends_the_program (argv0 : string) (args : list string)
    (opts : list (string * string)) (operands : list string)
    (before after : list (string * string)) (flag arg : string)
    (o : Options) (made : list string) (e : Exn) :
  (2 <= List.length args)%nat ->
  Getopt.getopt args "hd:r:i:o:" = inr (opts, operands) ->
  opts = before ++ (flag, arg) :: after ->
  process_options before default_options [] = Continue o made ->
  (flag = "-i" /\ py_int arg = inl e) \/ (flag = "-o" /\ os_makedirs arg = Some e) ->
  program argv0 args
  = {| final := initial_state; exit_status := 1; created := made |}.
Proof.
  intros Hlen Hget -> Hbefore Hbad. unfold program.
  destruct (Nat.ltb_spec (1 + List.length args) 3); [lia|].
  rewrite Hget, process_options_app, Hbefore.
  destruct Hbad as [[-> Hint]|[-> Hdir]]; cbn.
  - rewrite Hint. reflexivity.
  - rewrite Hdir. reflexivity.
Qed.

End OptionFacts.

(** Two thresholds and an output folder on the command line: the scan
    runs with the last threshold. *)
Lemma program_uses_the_last_options_witness :
  let opts := [("-d", "disk.raw"); ("-r", "refs"); ("-i", "3"); ("-o", "out");
               ("-i", "10")]%string in
  let run := main (E := Demo.quiet) "main.py" "disk.raw" "refs" 10 "out" in
  opts <> [] /\
  Forall sets_a_variable opts /\
  program (E := Demo.quiet) (S := DemoShell.shell) "main.py"
    ["-d"; "disk.raw"; "-r"; "refs"; "-i"; "3"; "-o"; "out"; "-i"; "10"]%string
  = {| final := fst run; exit_status := snd run; created := ["out"%string] |}.
Proof.
  intros opts run.
  assert (Hne : opts <> []) by discriminate.
  assert (Hflags : Forall sets_a_variable opts).
  { repeat (apply Forall_cons; [unfold sets_a_variable; simpl; tauto|]).
    apply Forall_nil. }
  split; [exact Hne|]. split; [exact Hflags|].
  apply (@program_uses_the_last_options Pillow.library Demo.quiet DemoShell.shell
           "main.py" opts Hne Hflags).
  - intros a [<-|[<-|[]]]; eexists; reflexivity.
  - intros a [<-|[]]. reflexivity.
Defined.

(** A threshold that is not a number: the options after it are not
    read and nothing is printed. *)
Lemma bad_option_value_ends_the_program_witness :
  program (E := Demo.quiet) (S := DemoShell.shell) "main.py"
    ["-d"; "disk.raw"; "-i"; "ten"; "-r"; "refs"]%string
  = {| final := initial_state; exit_status := 1; created := [] |}.
Proof.
  apply (@bad_option_value_ends_the_program Pillow.library Demo.quiet
           DemoShell.shell "main.py"
           ["-d"; "disk.raw"; "-i"; "ten"; "-r"; "refs"]%string
           [("-d", "disk.raw"); ("-i", "ten"); ("-r", "refs")]%string []
           [("-d", "disk.raw")]%string [("-r", "refs")]%string "-i" "ten"
           {| opt_disk_image_path := "disk.raw";
              opt_reference_image_folder_path := "";
              opt_similarity_threshold := 10;
              opt_output_folder := "" |}
           [] "invalid literal for int() with base 10: 'ten'").
  - simpl; lia.
  - reflexivity.
  - reflexivity.
  - reflexivity.
  - left. split; reflexivity.
Defined.

(** One argument only; an option that does not exist; and [-h] after an
    output folder. *)
Lemma usage_and_exit_status_witness :
  program (E := Demo.quiet) (S := DemoShell.shell) "main.py" ["-h"]%string
    = usage_exit "main.py" 1 [] /\
  program (E := Demo.quiet) (S := DemoShell.shell) "main.py" ["-x"; "y"]%string
    = usage_exit "main.py" 2 [] /\
  program (E := Demo.quiet) (S := DemoShell.shell) "main.py"
    ["-o"; "out"; "-h"; "-d"; "disk.raw"]%string
    = usage_exit "main.py" 0 ["out"%string].
Proof.
  split; [|split].
  - apply (proj1 (@usage_and_exit_status Pillow.library Demo.quiet DemoShell.shell
                    "main.py" ["-h"]%string)).
    simpl; lia.
  - apply (proj1 (proj2 (@usage_and_exit_status Pillow.library Demo.quiet
                           DemoShell.shell "main.py" ["-x"; "y"]%string))
             ltac:(simpl; lia) "option -x not recognized").
    reflexivity.
  - apply (proj2 (proj2 (@usage_and_exit_status Pillow.library Demo.quiet
                           DemoShell.shell "main.py"
                           ["-o"; "out"; "-h"; "-d"; "disk.raw"]%string))
             ltac:(simpl; lia)
             [("-o", "out"); ("-h", ""); ("-d", "disk.raw")]%string []
             [("-o", "out")]%string [("-d", "disk.raw")]%string
             {| opt_disk_image_path := "";
                opt_reference_image_folder_path := "";
                opt_similarity_threshold := 10;
                opt_output_folder := "out" |}
             ["out"%string]); reflexivity.
Defined.
